(** * StateRedux todo list: the Redux todos slice and the undo banner

    A shallow embedding of [src/app/index.jsx]: the [todos] slice
    (reducers [addTodo], [toggleTodo], [removeTodo], [clearTodos]), the
    banner state of the [TodosCard] component and its handlers
    ([showBanner], [handleAddTodo], [handleToggleDone], [handleUndo],
    [handleDismiss]), together with the parts of the JavaScript run time
    the handlers rely on: [String.prototype.trim], [nanoid], [Date.now]
    and [setTimeout]. *)

From Stdlib Require Import List Bool Arith ZArith NArith Lia String Ascii.
From Stdlib Require Import Permutation.
Import ListNotations.

(** ** JavaScript strings *)

(** A JavaScript string is a sequence of UTF-16 code units. *)
Definition jstr : Type := list N.

Definition jstr_eq_dec (a b : jstr) : {a = b} + {a <> b} :=
  list_eq_dec N.eq_dec a b.

(** [a === b] on strings. *)
Definition strict_eq (a b : jstr) : bool :=
  if jstr_eq_dec a b then true else false.

(** A string literal of the source, one code unit per character. *)
Fixpoint lit (s : string) : jstr :=
  match s with
  | EmptyString => []
  | String c r => N_of_ascii c :: lit r
  end.

(** The double quote character, U+0022. *)
Definition dquote : N := 34%N.

(** ECMAScript [WhiteSpace] and [LineTerminator] code points, the ones
    [String.prototype.trim] strips: TAB, LF, VT, FF, CR, SP, NBSP, the
    other space separators (category Zs), LS, PS and the BOM. *)
Definition isWhiteSpace (c : N) : bool :=
  ((9 <=? c) && (c <=? 13) || (c =? 32) || (c =? 160) || (c =? 5760)
   || (8192 <=? c) && (c <=? 8202) || (c =? 8232) || (c =? 8233)
   || (c =? 8239) || (c =? 8287) || (c =? 12288) || (c =? 65279))%N.

Fixpoint trimStart (s : jstr) : jstr :=
  match s with
  | [] => []
  | c :: r => if isWhiteSpace c then trimStart r else s
  end.

Definition trimEnd (s : jstr) : jstr := rev (trimStart (rev s)).

(** [s.trim()] *)
Definition trim (s : jstr) : jstr := trimEnd (trimStart s).

(** [!s] for a string [s]: only the empty string is falsy. *)
Definition not_str (s : jstr) : bool :=
  match s with
  | [] => true
  | _ :: _ => false
  end.

(** ** Data model *)

Module Todo.

(** The payload built by [addTodo.prepare] (line 49) and by
    [handleAddTodo] (line 182). *)
Record t : Type := mk
  { id : jstr;
    title : jstr;
    done : bool;
    createdAt : Z }.

(** The effect of [todo.done = !todo.done] on a record. *)
Definition flip (x : t) : t :=
  mk (id x) (title x) (negb (done x)) (createdAt x).

End Todo.

(** The Redux root state: slices [ui] and [todos]. *)
Record RootState : Type := mkRoot
  { darkMode : bool;
    items : list Todo.t }.

(** The four [useState] cells under the comment "Banner state"
    (lines 150-153); [null] is [None]. *)
Record Banner : Type := mkBanner
  { bannerVisible : bool;
    bannerMessage : jstr;
    lastTodo : option Todo.t;
    lastAction : option jstr }.

(** What the handlers use of the environment: the clock read by
    [Date.now] (milliseconds), the due times of the callbacks scheduled
    by [setTimeout] and not yet run (in scheduling order), how many ids
    [nanoid] has handed out, and how many haptic impacts were requested. *)
Record Env : Type := mkEnv
  { now : Z;
    timers : list Z;
    nanoid_calls : nat;
    haptics : nat }.

(** Everything the [TodosCard] handlers read or write: the Redux store,
    the text field's [title] cell, the banner cells, the environment. *)
Record World : Type := mkWorld
  { store : RootState;
    title : jstr;
    banner : Banner;
    env : Env }.

Definition with_store (f : RootState -> RootState) (w : World) : World :=
  mkWorld (f (store w)) (title w) (banner w) (env w).

Definition with_banner (f : Banner -> Banner) (w : World) : World :=
  mkWorld (store w) (title w) (f (banner w)) (env w).

Definition with_env (f : Env -> Env) (w : World) : World :=
  mkWorld (store w) (title w) (banner w) (f (env w)).

(** The banner cells as [useState] initialises them, which is also what
    the four resetting setters leave behind: the controller's Idle state. *)
Definition idle_banner : Banner := mkBanner false [] None None.

(** The state at start-up: [initialState] of both slices, [useState]
    initial values, no timer pending; the clock is the caller's. *)
Definition initial (t0 : Z) : World :=
  mkWorld (mkRoot false []) [] idle_banner (mkEnv t0 [] 0 0).

(** The todos the store holds, [useSelector((s) => s.todos.items)]. *)
Definition todos (w : World) : list Todo.t := items (store w).

(** ** Handlers as state-passing computations *)

(** How a call ends: it returns a value or an exception escapes; an
    exception is identified by its [name]. *)
Inductive completion (A : Type) : Type :=
| Returned (a : A)
| Thrown (name : string).

Arguments Returned {A} a.
Arguments Thrown {A} name.

Definition M (A : Type) : Type := World -> completion A * World.

Definition ret {A} (a : A) : M A := fun w => (Returned a, w).

Definition bind {A B} (m : M A) (k : A -> M B) : M B :=
  fun w =>
    match m w with
    | (Returned a, w') => k a w'
    | (Thrown e, w') => (Thrown e, w')
    end.

Definition throw {A} (name : string) : M A := fun w => (Thrown name, w).

Definition gets {A} (f : World -> A) : M A := fun w => (Returned (f w), w).

Definition modify (f : World -> World) : M unit :=
  fun w => (Returned tt, f w).

Declare Scope js_scope.
Delimit Scope js_scope with js.
Notation "x <- m ;; k" := (bind m (fun x => k))
  (at level 61, m at next level, right associativity) : js_scope.
Notation "m ;; k" := (bind m (fun _ => k))
  (at level 61, right associativity) : js_scope.
Open Scope js_scope.

(** The state a computation leaves, and how it completed. *)
Definition exec {A} (m : M A) (w : World) : World := snd (m w).
Definition outcome {A} (m : M A) (w : World) : completion A := fst (m w).

(** [o.id] for a value that may be [null]: reading a property of [null]
    throws a TypeError. *)
Definition get_id (o : option Todo.t) : M jstr :=
  match o with
  | Some x => ret (Todo.id x)
  | None => throw "TypeError"
  end.

(** [Date.now()] *)
Definition Date_now : M Z := gets (fun w => now (env w)).

(** [setTimeout(callback, delay)]: the callback becomes due [delay]
    milliseconds from now.  The source never keeps the handle and never
    calls [clearTimeout].  Its only callback is the banner reset of
    lines 172-175, so a pending timer is represented by its due time. *)
Definition setTimeout (delay : Z) : M unit :=
  modify (with_env (fun e =>
    mkEnv (now e) (timers e ++ [now e + delay]%Z) (nanoid_calls e) (haptics e))).

(** [Haptics.impactAsync(...)] *)
Definition Haptics_impactAsync : M unit :=
  modify (with_env (fun e =>
    mkEnv (now e) (timers e) (nanoid_calls e) (S (haptics e)))).

(** The [useState] setters. *)
Definition setTitle (s : jstr) : M unit :=
  modify (fun w => mkWorld (store w) s (banner w) (env w)).

Definition setBannerVisible (b : bool) : M unit :=
  modify (with_banner (fun s =>
    mkBanner b (bannerMessage s) (lastTodo s) (lastAction s))).

Definition setBannerMessage (m : jstr) : M unit :=
  modify (with_banner (fun s =>
    mkBanner (bannerVisible s) m (lastTodo s) (lastAction s))).

Definition setLastTodo (o : option Todo.t) : M unit :=
  modify (with_banner (fun s =>
    mkBanner (bannerVisible s) (bannerMessage s) o (lastAction s))).

Definition setLastAction (a : option jstr) : M unit :=
  modify (with_banner (fun s =>
    mkBanner (bannerVisible s) (bannerMessage s) (lastTodo s) a)).

(** ** The todos slice (lines 40-63) *)

(** The actions of the two slices, with their payloads. *)
Inductive Action : Type :=
| ToggleDarkMode
| AddTodo (payload : Todo.t)
| ToggleTodo (payload : jstr)
| RemoveTodo (payload : jstr)
| ClearTodos.

(** [state.items.unshift(action.payload)] *)
Definition addTodo_reducer (payload : Todo.t) (its : list Todo.t) : list Todo.t :=
  payload :: its.

(** [state.items.find((t) => t.id === action.payload)] *)
Definition find_by_id (payload : jstr) (its : list Todo.t) : option Todo.t :=
  find (fun x => strict_eq (Todo.id x) payload) its.

(** [toggleTodo]: the first record [find] meets with that id has its
    [done] negated in place; nothing happens when there is none. *)
Fixpoint toggleTodo (payload : jstr) (its : list Todo.t) : list Todo.t :=
  match its with
  | [] => []
  | x :: rest =>
      if strict_eq (Todo.id x) payload
      then Todo.flip x :: rest
      else x :: toggleTodo payload rest
  end.

(** [state.items.filter((t) => t.id !== action.payload)] *)
Definition removeTodo (payload : jstr) (its : list Todo.t) : list Todo.t :=
  filter (fun x => negb (strict_eq (Todo.id x) payload)) its.

(** [state.items = []] *)
Definition clearTodos (its : list Todo.t) : list Todo.t := [].

(** The root reducer of [configureStore]. *)
Definition rootReducer (a : Action) (s : RootState) : RootState :=
  match a with
  | ToggleDarkMode => mkRoot (negb (darkMode s)) (items s)
  | AddTodo p => mkRoot (darkMode s) (addTodo_reducer p (items s))
  | ToggleTodo p => mkRoot (darkMode s) (toggleTodo p (items s))
  | RemoveTodo p => mkRoot (darkMode s) (removeTodo p (items s))
  | ClearTodos => mkRoot (darkMode s) (clearTodos (items s))
  end.

(** [dispatch(action)]: synchronous. *)
Definition dispatch (a : Action) : M unit := modify (with_store (rootReducer a)).

(** The four setter calls that reset the banner; the source repeats them
    in the timer callback (lines 172-175), in [handleToggleDone] (198-201),
    in [handleUndo] (217-220) and in [handleDismiss] (225-228). *)
Definition resetBanner : M unit :=
  setBannerVisible false ;;
  setLastTodo None ;;
  setLastAction None ;;
  setBannerMessage [].

(** [showBanner] (lines 164-177). *)
Definition showBanner (message : jstr) (todo : Todo.t) (action : jstr) : M unit :=
  setBannerMessage message ;;
  setLastTodo (Some todo) ;;
  setLastAction (Some action) ;;
  setBannerVisible true ;;
  setTimeout 3000.

(** [handleDismiss] (lines 224-229). *)
Definition handleDismiss : M unit := resetBanner.

(** Time passes with no call in between: the clock advances by [dt] and
    every callback that has become due runs.  (A timer is taken to fire
    at its due time; all callbacks are the same banner reset.) *)
Definition elapse (dt : N) (w : World) : World :=
  let t := (now (env w) + Z.of_N dt)%Z in
  let due := filter (fun d => (d <=? t)%Z) (timers (env w)) in
  let pending := filter (fun d => negb (d <=? t)%Z) (timers (env w)) in
  let w' := with_env (fun e => mkEnv t pending (nanoid_calls e) (haptics e)) w in
  match due with
  | [] => w'
  | _ :: _ => exec resetBanner w'
  end.

(** The two template literals. *)
Definition added_message (t : jstr) : jstr :=
  lit "Added: " ++ [dquote] ++ t ++ [dquote].

Definition completed_message (t : jstr) : jstr :=
  lit "Completed: " ++ [dquote] ++ t ++ [dquote].

(** The controller's two states. *)
Definition Idle (w : World) : Prop := banner w = idle_banner.

Definition Showing (message : jstr) (todo : Todo.t) (action : jstr) (w : World) : Prop :=
  banner w = mkBanner true message (Some todo) (Some action).

(** An id generator for concrete runs: the k-th id is k+1 letters x. *)
Fixpoint counter_id (k : nat) : jstr :=
  match k with
  | O => [120%N]
  | S k' => 120%N :: counter_id k'
  end.

(** A string neither starts nor ends with a character [trim] strips. *)
Definition starts_clean (s : jstr) : Prop :=
  match s with
  | [] => True
  | c :: _ => isWhiteSpace c = false
  end.

Definition ends_clean (s : jstr) : Prop := starts_clean (rev s).

Section App.

(** [nanoid()] is a library call: [nanoid_at k] is the string its k-th
    call returns. *)
Variable nanoid_at : nat -> jstr.

Definition nanoid : M jstr :=
  fun w =>
    (Returned (nanoid_at (nanoid_calls (env w))),
     with_env (fun e => mkEnv (now e) (timers e) (S (nanoid_calls e)) (haptics e)) w).

(** The action creator [addTodo(title)] with its [prepare] (lines 48-50). *)
Definition addTodo (title : jstr) : M Action :=
  i <- nanoid ;;
  t <- Date_now ;;
  ret (AddTodo (Todo.mk i title false t)).

(** [handleAddTodo] (lines 180-187). *)
Definition handleAddTodo : M unit :=
  title <- gets title ;;
  if not_str (trim title) then ret tt
  else
    i <- nanoid ;;
    t <- Date_now ;;
    let newTodo := Todo.mk i (trim title) false t in
    a <- addTodo (Todo.title newTodo) ;;
    dispatch a ;;
    setTitle [] ;;
    Haptics_impactAsync ;;
    showBanner (added_message (Todo.title newTodo)) newTodo (lit "add").

(** [handleToggleDone] (lines 190-203). *)
Definition handleToggleDone (todo : Todo.t) : M unit :=
  dispatch (ToggleTodo (Todo.id todo)) ;;
  if negb (Todo.done todo)
  then showBanner (completed_message (Todo.title todo)) todo (lit "done")
  else resetBanner.

(** [!lastTodo || !lastAction] *)
Definition nothing_to_undo (b : Banner) : bool :=
  match lastTodo b with None => true | Some _ => false end
  || match lastAction b with None => true | Some a => not_str a end.

(** [handleUndo] (lines 206-221). *)
Definition handleUndo : M unit :=
  b <- gets banner ;;
  if nothing_to_undo b then ret tt
  else
    (match lastAction b with
     | Some a =>
         if strict_eq a (lit "add") then
           i <- get_id (lastTodo b) ;; dispatch (RemoveTodo i)
         else if strict_eq a (lit "done") then
           i <- get_id (lastTodo b) ;; dispatch (ToggleTodo i)
         else ret tt
     | None => ret tt
     end) ;;
    resetBanner.

(** What the user and the clock can do. *)
Inductive Event : Type :=
| Typed (text : jstr)
| PressAdd
| PressDone (todo : Todo.t)
| PressRemove (i : jstr)
| PressClear
| PressUndo
| PressDismiss
| PressDarkMode
| Wait (dt : N).

Definition step (e : Event) (w : World) : World :=
  match e with
  | Typed s => exec (setTitle s) w
  | PressAdd => exec handleAddTodo w
  | PressDone x => exec (handleToggleDone x) w
  | PressRemove i => exec (dispatch (RemoveTodo i)) w
  | PressClear => exec (dispatch ClearTodos) w
  | PressUndo => exec handleUndo w
  | PressDismiss => exec handleDismiss w
  | PressDarkMode => exec (dispatch ToggleDarkMode) w
  | Wait dt => elapse dt w
  end.

(** Events handled one at a time, first to last. *)
Definition run (es : list Event) (w : World) : World :=
  fold_left (fun w e => step e w) es w.

(** The record [addTodo.prepare] builds when [handleAddTodo] runs in [w]:
    its id comes from the second [nanoid] call of the handler. *)
Definition stored_todo (w : World) : Todo.t :=
  Todo.mk (nanoid_at (S (nanoid_calls (env w)))) (trim (title w)) false (now (env w)).

(** The object [handleAddTodo] builds itself and hands to [showBanner]:
    its id comes from the first [nanoid] call. *)
Definition local_todo (w : World) : Todo.t :=
  Todo.mk (nanoid_at (nanoid_calls (env w))) (trim (title w)) false (now (env w)).

(** What a step can do to the store. *)
Inductive store_change (w w' : World) : Prop :=
| change_none :
    todos w' = todos w ->
    nanoid_calls (env w') = nanoid_calls (env w) -> store_change w w'
| change_add :
    todos w' = stored_todo w :: todos w ->
    nanoid_calls (env w') = S (S (nanoid_calls (env w))) -> store_change w w'
| change_toggle (p : jstr) :
    todos w' = toggleTodo p (todos w) ->
    nanoid_calls (env w') = nanoid_calls (env w) -> store_change w w'
| change_remove (p : jstr) :
    todos w' = removeTodo p (todos w) ->
    nanoid_calls (env w') = nanoid_calls (env w) -> store_change w w'
| change_clear :
    todos w' = [] ->
    nanoid_calls (env w') = nanoid_calls (env w) -> store_change w w'.

(** Every todo the store holds got its id from an earlier [nanoid] call. *)
Definition ids_issued (w : World) : Prop :=
  forall x, In x (todos w) ->
    exists k, k < nanoid_calls (env w) /\ Todo.id x = nanoid_at k.

(** ... and no two of them share an id. *)
Definition store_ok (w : World) : Prop :=
  ids_issued w /\ NoDup (map Todo.id (todos w)).

(** ** What the component renders *)

(** [items.filter((todo) => !todo.done)] and
    [items.filter((todo) => todo.done)] (lines 156-157): the data of the
    To Do list and of the Done list. *)
Definition undoneTodos (its : list Todo.t) : list Todo.t :=
  filter (fun x => negb (Todo.done x)) its.

Definition doneTodos (its : list Todo.t) : list Todo.t :=
  filter (fun x => Todo.done x) its.

(** [bannerVisible && lastTodo] (line 234): whether the banner card,
    with its Undo and Dismiss buttons, is on screen. *)
Definition banner_rendered (b : Banner) : bool :=
  bannerVisible b && match lastTodo b with Some _ => true | None => false end.

(** [items.length > 0] (line 326): whether Clear All is on screen. *)
Definition clearAll_rendered (its : list Todo.t) : bool :=
  0 <? List.length its.

(** What the user can do in a state: the Done/Undo and Remove buttons
    exist for the records of the two lists (lines 272-321), Undo and
    Dismiss on the banner card, Clear All under the lists; the text
    field, the Add button and the dark mode switch are always there, and
    time may always pass. *)
Definition offered (e : Event) (w : World) : Prop :=
  match e with
  | PressDone x => In x (todos w)
  | PressRemove i => exists x, In x (todos w) /\ i = Todo.id x
  | PressClear => clearAll_rendered (todos w) = true
  | PressUndo => banner_rendered (banner w) = true
  | PressDismiss => banner_rendered (banner w) = true
  | Typed _ => True
  | PressAdd => True
  | PressDarkMode => True
  | Wait _ => True
  end.

(** The states a user can bring the application to from start-up. *)
Inductive ui_reachable (t0 : Z) : World -> Prop :=
| ui_start : ui_reachable t0 (initial t0)
| ui_step (e : Event) (w : World) :
    ui_reachable t0 w -> offered e w -> ui_reachable t0 (step e w).

(** ** Invariants *)

(** The banner cells are all reset, or they show an add or a completion
    of [lastTodo] under the matching message. *)
Definition banner_ok (w : World) : Prop :=
  Idle w \/
  exists x,
    Showing (added_message (Todo.title x)) x (lit "add") w \/
    (Showing (completed_message (Todo.title x)) x (lit "done") w /\
     Todo.done x = false).

(** Every pending timer is due later than now and within 3000 ms, and a
    visible banner has one pending. *)
Definition timers_ok (w : World) : Prop :=
  Forall (fun d => (now (env w) < d <= now (env w) + 3000)%Z) (timers (env w)) /\
  (bannerVisible (banner w) = true -> timers (env w) <> []).

(** Every stored title is non-empty and has no white space at its ends. *)
Definition titles_ok (w : World) : Prop :=
  Forall (fun x => Todo.title x <> [] /\ trim (Todo.title x) = Todo.title x)
    (todos w).

(** Creation times never increase along the list and none is in the
    future. *)
Fixpoint newest_first (bound : Z) (its : list Todo.t) : Prop :=
  match its with
  | [] => True
  | x :: rest => (Todo.createdAt x <= bound)%Z /\ newest_first (Todo.createdAt x) rest
  end.

(** The object an Added banner refers to is not in the store. *)
Definition add_banner_detached (w : World) : Prop :=
  forall m x, Showing m x (lit "add") w ->
    ~ In (Todo.id x) (map Todo.id (todos w)).

(** The record a Completed banner refers to is, if the store still has
    its id, stored as that record marked done. *)
Definition done_banner_synced (w : World) : Prop :=
  forall m x, Showing m x (lit "done") w ->
    forall y, In y (todos w) -> Todo.id y = Todo.id x -> y = Todo.flip x.

(** The state with the [ui] slice's flag set to [b], all else equal. *)
Definition set_dark (b : bool) (w : World) : World :=
  with_store (fun s => mkRoot b (items s)) w.

Definition is_dark_press (e : Event) : bool :=
  match e with
  | PressDarkMode => true
  | _ => false
  end.

(** The text the banner card shows, if the card is rendered (lines
    234-236): [{bannerMessage}] under [bannerVisible && lastTodo]. *)
Definition banner_text (b : Banner) : option jstr :=
  if banner_rendered b then Some (bannerMessage b) else None.

(** ** Handlers as closures of a render

    [TodosCard] creates its handlers anew at every render, and each of
    them reads the [title], [lastTodo] and [lastAction] of that render
    (lines 145-153), not the cells as they are when it runs.
    [handleAddTodo_of t] is the [handleAddTodo] of a render in which
    [title] is [t]; [handleUndo_of b] is the [handleUndo] of a render
    whose banner cells are [b].  [handleAddTodo] and [handleUndo] above
    are the handlers of the render of the very state they run in, which
    is what a press after a re-render calls. *)
Definition handleAddTodo_of (title : jstr) : M unit :=
  if not_str (trim title) then ret tt
  else
    i <- nanoid ;;
    t <- Date_now ;;
    let newTodo := Todo.mk i (trim title) false t in
    a <- addTodo (Todo.title newTodo) ;;
    dispatch a ;;
    setTitle [] ;;
    Haptics_impactAsync ;;
    showBanner (added_message (Todo.title newTodo)) newTodo (lit "add").

Definition handleUndo_of (b : Banner) : M unit :=
  if nothing_to_undo b then ret tt
  else
    (match lastAction b with
     | Some a =>
         if strict_eq a (lit "add") then
           i <- get_id (lastTodo b) ;; dispatch (RemoveTodo i)
         else if strict_eq a (lit "done") then
           i <- get_id (lastTodo b) ;; dispatch (ToggleTodo i)
         else ret tt
     | None => ret tt
     end) ;;
    resetBanner.

(** Case analysis on every condition a goal branches on. *)
Ltac case_ifs :=
  repeat match goal with
         | |- context [if ?b then _ else _] => destruct b
         end.

(** ** Strings *)

Lemma strict_eq_refl (a : jstr) : strict_eq a a = true.
Proof. unfold strict_eq. destruct (jstr_eq_dec a a); congruence. Qed.

Lemma strict_eq_true (a b : jstr) : strict_eq a b = true <-> a = b.
Proof.
  unfold strict_eq. destruct (jstr_eq_dec a b); split; congruence.
Qed.

Lemma strict_eq_false (a b : jstr) : strict_eq a b = false <-> a <> b.
Proof.
  unfold strict_eq. destruct (jstr_eq_dec a b); split; congruence.
Qed.

Lemma not_str_true (s : jstr) : not_str s = true <-> s = [].
Proof. destruct s; simpl; split; congruence. Qed.

Lemma not_str_false (s : jstr) : not_str s = false <-> s <> [].
Proof. destruct s; simpl; split; congruence. Qed.

Lemma trimStart_split (s : jstr) :
  exists l, s = l ++ trimStart s /\ forallb isWhiteSpace l = true.
Proof.
  induction s as [|c r IH]; simpl.
  - exists []. auto.
  - destruct (isWhiteSpace c) eqn:Hc.
    + destruct IH as (l & Hl & Hws). exists (c :: l). simpl.
      rewrite Hc, Hws. split; [f_equal; exact Hl | reflexivity].
    + exists []. auto.
Qed.

Lemma trimStart_clean (s : jstr) : starts_clean (trimStart s).
Proof.
  induction s as [|c r IH]; simpl; [exact I|].
  destruct (isWhiteSpace c) eqn:Hc; [exact IH | exact Hc].
Qed.

Lemma trimEnd_split (s : jstr) :
  exists r, s = trimEnd s ++ r /\ forallb isWhiteSpace r = true.
Proof.
  unfold trimEnd. destruct (trimStart_split (rev s)) as (l & Hl & Hws).
  exists (rev l). split.
  - rewrite <- rev_app_distr, <- Hl, rev_involutive. reflexivity.
  - rewrite forallb_forall in *. intros c Hc. apply Hws, in_rev, Hc.
Qed.

Lemma trimEnd_clean (s : jstr) : ends_clean (trimEnd s).
Proof.
  unfold ends_clean, trimEnd. rewrite rev_involutive. apply trimStart_clean.
Qed.

Lemma starts_clean_prefix (a b : jstr) : starts_clean (a ++ b) -> starts_clean a.
Proof. destruct a; simpl; auto. Qed.

Lemma trimStart_nil (s : jstr) :
  trimStart s = [] <-> forallb isWhiteSpace s = true.
Proof.
  induction s as [|c r IH]; simpl; [tauto|].
  destruct (isWhiteSpace c); simpl; [exact IH|]. split; discriminate.
Qed.

(** The strings [trim] empties are the ones made of white space only. *)
Lemma trim_nil (s : jstr) : trim s = [] <-> forallb isWhiteSpace s = true.
Proof.
  split.
  - intros H. apply trimStart_nil. unfold trim, trimEnd in H.
    apply (f_equal (@rev N)) in H. rewrite rev_involutive in H. simpl in H.
    apply trimStart_nil in H.
    pose proof (trimStart_clean s) as Hc.
    destruct (trimStart s) as [|c u]; [reflexivity|]. simpl in Hc.
    rewrite forallb_forall in H. rewrite (H c) in Hc; [discriminate|].
    apply -> in_rev. now left.
  - intros H. apply trimStart_nil in H. unfold trim. now rewrite H.
Qed.

(** What [trim] computes: the input with a run of strippable characters
    taken off each end, as long as possible. *)
Lemma trim_spec (s : jstr) :
  exists l r,
    s = l ++ trim s ++ r /\
    forallb isWhiteSpace l = true /\ forallb isWhiteSpace r = true /\
    starts_clean (trim s) /\ ends_clean (trim s).
Proof.
  unfold trim.
  destruct (trimStart_split s) as (l & Hl & Hlw).
  destruct (trimEnd_split (trimStart s)) as (r & Hr & Hrw).
  exists l, r. repeat split; auto.
  - rewrite <- Hr. exact Hl.
  - apply starts_clean_prefix with (b := r). rewrite <- Hr. apply trimStart_clean.
  - apply trimEnd_clean.
Qed.

(** ** The reducers *)

Lemma flip_flip (x : Todo.t) : Todo.flip (Todo.flip x) = x.
Proof. destruct x as [i t d c]. unfold Todo.flip; simpl. now rewrite negb_involutive. Qed.

Lemma toggleTodo_involutive (p : jstr) (its : list Todo.t) :
  toggleTodo p (toggleTodo p its) = its.
Proof.
  induction its as [|x rest IH]; simpl; [reflexivity|].
  destruct (strict_eq (Todo.id x) p) eqn:E; simpl.
  - rewrite E, flip_flip. reflexivity.
  - rewrite E, IH. reflexivity.
Qed.

Lemma find_by_id_toggleTodo (p : jstr) (its : list Todo.t) (x : Todo.t) :
  find_by_id p its = Some x ->
  find_by_id p (toggleTodo p its) = Some (Todo.flip x).
Proof.
  unfold find_by_id. induction its as [|y rest IH]; simpl; [discriminate|].
  destruct (strict_eq (Todo.id y) p) eqn:E; simpl.
  - intros [= <-]. rewrite E. reflexivity.
  - rewrite E. exact IH.
Qed.

Lemma find_by_id_absent (p : jstr) (its : list Todo.t) :
  ~ In p (map Todo.id its) -> find_by_id p its = None.
Proof.
  unfold find_by_id. induction its as [|y rest IH]; simpl; [reflexivity|].
  intros H. destruct (strict_eq (Todo.id y) p) eqn:E.
  - apply strict_eq_true in E. tauto.
  - apply IH. tauto.
Qed.

Lemma find_by_id_present (p : jstr) (its : list Todo.t) :
  In p (map Todo.id its) ->
  exists x, find_by_id p its = Some x /\ In x its /\ Todo.id x = p.
Proof.
  unfold find_by_id. induction its as [|y rest IH]; simpl; [tauto|].
  intros H. destruct (strict_eq (Todo.id y) p) eqn:E.
  - exists y. apply strict_eq_true in E. auto.
  - apply strict_eq_false in E. destruct H as [H|H]; [contradiction|].
    destruct (IH H) as (x & Hx & Hin & Hid). exists x. auto.
Qed.

Lemma find_by_id_NoDup (its : list Todo.t) (x : Todo.t) :
  NoDup (map Todo.id its) -> In x its -> find_by_id (Todo.id x) its = Some x.
Proof.
  unfold find_by_id. induction its as [|y rest IH]; simpl; [tauto|].
  intros Hnd [-> | Hin].
  - now rewrite strict_eq_refl.
  - inversion Hnd as [|? ? Hy Hrest]; subst.
    destruct (strict_eq (Todo.id y) (Todo.id x)) eqn:E.
    + apply strict_eq_true in E. exfalso. apply Hy. rewrite E.
      apply in_map, Hin.
    + apply IH; assumption.
Qed.

Lemma toggleTodo_absent (p : jstr) (its : list Todo.t) :
  ~ In p (map Todo.id its) -> toggleTodo p its = its.
Proof.
  induction its as [|y rest IH]; simpl; [reflexivity|].
  intros H. destruct (strict_eq (Todo.id y) p) eqn:E.
  - apply strict_eq_true in E. tauto.
  - rewrite IH; tauto.
Qed.

Lemma removeTodo_absent (p : jstr) (its : list Todo.t) :
  ~ In p (map Todo.id its) -> removeTodo p its = its.
Proof.
  unfold removeTodo. induction its as [|y rest IH]; simpl; [reflexivity|].
  intros H. destruct (strict_eq (Todo.id y) p) eqn:E; simpl.
  - apply strict_eq_true in E. tauto.
  - rewrite IH; tauto.
Qed.

Lemma removeTodo_gone (p : jstr) (its : list Todo.t) :
  ~ In p (map Todo.id (removeTodo p its)).
Proof.
  unfold removeTodo. rewrite in_map_iff. intros (x & Hid & Hin).
  apply filter_In in Hin. destruct Hin as [_ Hne].
  rewrite <- Hid, strict_eq_refl in Hne. discriminate.
Qed.

Lemma map_id_toggleTodo (p : jstr) (its : list Todo.t) :
  map Todo.id (toggleTodo p its) = map Todo.id its.
Proof.
  induction its as [|y rest IH]; simpl; [reflexivity|].
  destruct (strict_eq (Todo.id y) p); simpl; [reflexivity | now rewrite IH].
Qed.

(** ** The handlers, step by step *)

Lemma resetBanner_eq (w : World) :
  resetBanner w = (Returned tt, mkWorld (store w) (title w) idle_banner (env w)).
Proof. reflexivity. Qed.

Lemma showBanner_eq (m : jstr) (x : Todo.t) (a : jstr) (w : World) :
  showBanner m x a w =
  (Returned tt,
   mkWorld (store w) (title w) (mkBanner true m (Some x) (Some a))
     (mkEnv (now (env w)) (timers (env w) ++ [now (env w) + 3000]%Z)
        (nanoid_calls (env w)) (haptics (env w)))).
Proof. reflexivity. Qed.

Lemma handleAddTodo_blank (w : World) :
  trim (title w) = [] -> handleAddTodo w = (Returned tt, w).
Proof.
  intros H. unfold handleAddTodo, bind, gets. rewrite H. reflexivity.
Qed.

Lemma handleAddTodo_eq (w : World) :
  trim (title w) <> [] ->
  handleAddTodo w =
  (Returned tt,
   mkWorld (mkRoot (darkMode (store w)) (stored_todo w :: todos w)) []
     (mkBanner true (added_message (trim (title w))) (Some (local_todo w))
        (Some (lit "add")))
     (mkEnv (now (env w)) (timers (env w) ++ [now (env w) + 3000]%Z)
        (S (S (nanoid_calls (env w)))) (S (haptics (env w))))).
Proof.
  intros H. apply not_str_false in H.
  unfold handleAddTodo, bind, gets. rewrite H. reflexivity.
Qed.

Lemma handleToggleDone_eq (x : Todo.t) (w : World) :
  handleToggleDone x w =
  if negb (Todo.done x)
  then showBanner (completed_message (Todo.title x)) x (lit "done")
         (exec (dispatch (ToggleTodo (Todo.id x))) w)
  else resetBanner (exec (dispatch (ToggleTodo (Todo.id x))) w).
Proof.
  unfold handleToggleDone, bind. simpl. destruct (Todo.done x); reflexivity.
Qed.

Lemma handleUndo_nothing (w : World) :
  nothing_to_undo (banner w) = true -> handleUndo w = (Returned tt, w).
Proof.
  intros H. unfold handleUndo, bind, gets. rewrite H. reflexivity.
Qed.

Lemma handleUndo_add (w : World) (m : jstr) (x : Todo.t) :
  Showing m x (lit "add") w ->
  handleUndo w =
  (Returned tt,
   mkWorld (mkRoot (darkMode (store w)) (removeTodo (Todo.id x) (todos w)))
     (title w) idle_banner (env w)).
Proof.
  unfold Showing. intros H. unfold handleUndo, bind, gets. rewrite H.
  reflexivity.
Qed.

Lemma handleUndo_done (w : World) (m : jstr) (x : Todo.t) :
  Showing m x (lit "done") w ->
  handleUndo w =
  (Returned tt,
   mkWorld (mkRoot (darkMode (store w)) (toggleTodo (Todo.id x) (todos w)))
     (title w) idle_banner (env w)).
Proof.
  unfold Showing. intros H. unfold handleUndo, bind, gets. rewrite H.
  reflexivity.
Qed.

(** No handler lets an exception escape: the guard of [handleUndo]
    protects both reads of [lastTodo.id]. *)
Lemma handleUndo_returns (w : World) : outcome handleUndo w = Returned tt.
Proof.
  unfold outcome, handleUndo, bind, gets, nothing_to_undo.
  destruct (lastTodo (banner w)) as [x|]; simpl; [|reflexivity].
  destruct (lastAction (banner w)) as [a|]; simpl; [|reflexivity].
  case_ifs; reflexivity.
Qed.

Lemma handleAddTodo_returns (w : World) : outcome handleAddTodo w = Returned tt.
Proof.
  unfold outcome. destruct (jstr_eq_dec (trim (title w)) []) as [E|E].
  - now rewrite handleAddTodo_blank.
  - now rewrite handleAddTodo_eq.
Qed.

(** [handleUndo] only ever changes the list of todos and the banner. *)
Lemma handleUndo_env (w : World) : env (exec handleUndo w) = env w.
Proof.
  unfold exec, handleUndo, bind, gets, nothing_to_undo.
  destruct (lastTodo (banner w)) as [x|]; simpl; [|reflexivity].
  destruct (lastAction (banner w)) as [a|]; simpl; [|reflexivity].
  case_ifs; reflexivity.
Qed.

Lemma handleUndo_todos (w : World) :
  todos (exec handleUndo w) = todos w \/
  (exists i, todos (exec handleUndo w) = removeTodo i (todos w)) \/
  (exists i, todos (exec handleUndo w) = toggleTodo i (todos w)).
Proof.
  unfold exec, handleUndo, bind, gets, nothing_to_undo.
  destruct (lastTodo (banner w)) as [x|]; simpl; [|now left].
  destruct (lastAction (banner w)) as [a|]; simpl; [|now left].
  case_ifs; simpl;
    [now left | right; left; now exists (Todo.id x)
    | right; right; now exists (Todo.id x) | now left].
Qed.

Lemma elapse_store_env (dt : N) (w : World) :
  store (elapse dt w) = store w /\
  nanoid_calls (env (elapse dt w)) = nanoid_calls (env w) /\
  now (env (elapse dt w)) = (now (env w) + Z.of_N dt)%Z.
Proof.
  unfold elapse. destruct (filter _ (timers (env w))); simpl; auto.
Qed.

Lemma step_store_change (e : Event) (w : World) : store_change w (step e w).
Proof.
  destruct e as [s| |x|i| | | | |dt]; simpl.
  - now apply change_none.
  - unfold exec. destruct (jstr_eq_dec (trim (title w)) []) as [E|E].
    + rewrite (handleAddTodo_blank _ E). now apply change_none.
    + rewrite (handleAddTodo_eq _ E). now apply change_add.
  - unfold exec at 1. rewrite handleToggleDone_eq.
    destruct (negb (Todo.done x));
      [rewrite showBanner_eq | rewrite resetBanner_eq];
      now apply change_toggle with (p := Todo.id x).
  - now apply change_remove with (p := i).
  - now apply change_clear.
  - destruct (handleUndo_todos w) as [H | [[i H] | [i H]]];
      [apply change_none | apply change_remove with (p := i)
      | apply change_toggle with (p := i)];
      try exact H; now rewrite handleUndo_env.
  - now apply change_none.
  - now apply change_none.
  - destruct (elapse_store_env dt w) as (Hs & Hn & _).
    apply change_none; [unfold todos; now rewrite Hs | exact Hn].
Qed.

Lemma In_toggleTodo (p : jstr) (its : list Todo.t) (x : Todo.t) :
  In x (toggleTodo p its) -> exists y, In y its /\ Todo.id x = Todo.id y.
Proof.
  intros H. apply (in_map Todo.id) in H. rewrite map_id_toggleTodo in H.
  apply in_map_iff in H. destruct H as (y & Hy & Hin). exists y. auto.
Qed.

Lemma NoDup_map_filter {A B} (f : A -> B) (g : A -> bool) (l : list A) :
  NoDup (map f l) -> NoDup (map f (filter g l)).
Proof.
  induction l as [|a l IH]; simpl; [auto|].
  intros H. inversion H as [|? ? Ha Hl]; subst.
  destruct (g a); simpl; [|auto].
  constructor; [|auto].
  rewrite in_map_iff in *. intros (y & Hy & Hin). apply Ha.
  exists y. split; [exact Hy|]. apply filter_In in Hin. tauto.
Qed.

Lemma ids_issued_change (w w' : World) :
  store_change w w' -> ids_issued w -> ids_issued w'.
Proof.
  unfold ids_issued.
  intros [Ht Hn|Ht Hn|p Ht Hn|p Ht Hn|Ht Hn] Hw x Hx; rewrite Ht in Hx; rewrite Hn.
  - auto.
  - destruct Hx as [<-|Hx].
    + exists (S (nanoid_calls (env w))). simpl. auto.
    + destruct (Hw x Hx) as (k & Hk & E). exists k. auto.
  - destruct (In_toggleTodo _ _ _ Hx) as (y & Hy & E).
    destruct (Hw y Hy) as (k & Hk & E'). exists k. split; congruence.
  - apply filter_In in Hx. apply Hw, Hx.
  - destruct Hx.
Qed.

(** [nanoid] never returns the same string twice. *)
Hypothesis nanoid_fresh : forall i j, nanoid_at i = nanoid_at j -> i = j.

(** An id [nanoid] has yet to hand out is not in the store. *)
Lemma unissued_id_absent (w : World) (k : nat) :
  ids_issued w -> nanoid_calls (env w) <= k ->
  ~ In (nanoid_at k) (map Todo.id (todos w)).
Proof.
  intros Hw Hk Hin. apply in_map_iff in Hin. destruct Hin as (x & E & Hx).
  destruct (Hw x Hx) as (j & Hj & E').
  rewrite E' in E. apply nanoid_fresh in E. lia.
Qed.

Lemma store_ok_change (w w' : World) :
  store_change w w' -> store_ok w -> store_ok w'.
Proof.
  intros Hc [Hi Hnd]. split; [eapply ids_issued_change; eauto|].
  destruct Hc as [Ht Hn|Ht Hn|p Ht Hn|p Ht Hn|Ht Hn]; rewrite Ht.
  - exact Hnd.
  - simpl. constructor; [|exact Hnd].
    apply unissued_id_absent; [exact Hi | lia].
  - now rewrite map_id_toggleTodo.
  - now apply NoDup_map_filter.
  - constructor.
Qed.

Lemma store_ok_initial (t0 : Z) : store_ok (initial t0).
Proof. split; [intros x []|constructor]. Qed.

(** Every state the application can reach keeps its ids distinct. *)
Lemma store_ok_run (es : list Event) (w : World) :
  store_ok w -> store_ok (run es w).
Proof.
  unfold run. revert w. induction es as [|e es IH]; simpl; intros w Hw.
  - exact Hw.
  - apply IH. eapply store_ok_change; [apply step_store_change | exact Hw].
Qed.

(** ** The store operations *)

(** C5. For every list of todos and every id it contains, toggling that
    id twice gives back the very same list: the first toggle negates the
    [done] flag of the record [find] meets, the second restores it, and
    nothing else changes; the same holds for the whole Redux state. *)
Theorem toggleTodo_twice (s : RootState) (p : jstr) :
  In p (map Todo.id (items s)) ->
  toggleTodo p (toggleTodo p (items s)) = items s /\
  rootReducer (ToggleTodo p) (rootReducer (ToggleTodo p) s) = s /\
  exists x,
    find_by_id p (items s) = Some x /\
    find_by_id p (toggleTodo p (items s)) = Some (Todo.flip x) /\
    Todo.done (Todo.flip x) = negb (Todo.done x) /\
    find_by_id p (toggleTodo p (toggleTodo p (items s))) = Some x.
Proof.
  intros Hin. split; [apply toggleTodo_involutive|]. split.
  - destruct s as [dm its]. simpl. now rewrite toggleTodo_involutive.
  - destruct (find_by_id_present _ _ Hin) as (x & Hx & _).
    exists x. repeat split; auto.
    + now apply find_by_id_toggleTodo.
    + now rewrite toggleTodo_involutive.
Qed.

(** C6. Removing an id twice leaves the same list of todos, and the same
    Redux state, as removing it once; after one removal no record with
    that id is left. *)
Theorem removeTodo_idempotent (s : RootState) (p : jstr) :
  removeTodo p (removeTodo p (items s)) = removeTodo p (items s) /\
  rootReducer (RemoveTodo p) (rootReducer (RemoveTodo p) s) =
  rootReducer (RemoveTodo p) s /\
  ~ In p (map Todo.id (removeTodo p (items s))).
Proof.
  assert (H : removeTodo p (removeTodo p (items s)) = removeTodo p (items s))
    by (apply removeTodo_absent, removeTodo_gone).
  split; [exact H|]. split; [|apply removeTodo_gone].
  simpl. now rewrite H.
Qed.

(** C7. Dispatching [toggleTodo] or [removeTodo] with an id the store
    does not hold returns normally and changes nothing at all; so does
    [handleUndo] in the Idle state; and in every state [handleUndo] and
    [handleDismiss] return normally, [handleDismiss] leaving the store
    as it was. *)
Theorem missing_target_is_noop (w : World) :
  (forall p, ~ In p (map Todo.id (todos w)) ->
     dispatch (ToggleTodo p) w = (Returned tt, w) /\
     dispatch (RemoveTodo p) w = (Returned tt, w)) /\
  (Idle w -> handleUndo w = (Returned tt, w)) /\
  outcome handleUndo w = Returned tt /\
  outcome handleDismiss w = Returned tt /\
  store (exec handleDismiss w) = store w.
Proof.
  split; [|split; [|split; [apply handleUndo_returns | split; reflexivity]]].
  - intros p Hp. destruct w as [[dm its] ti b e]. unfold todos in Hp. simpl in Hp.
    unfold dispatch, modify, with_store. simpl.
    rewrite toggleTodo_absent, removeTodo_absent by exact Hp. auto.
  - unfold Idle. intros H. apply handleUndo_nothing. now rewrite H.
Qed.

(** ** Adding *)

(** C3 (as the code has it). When the trimmed text is empty,
    [handleAddTodo] returns normally, with no error reported, and leaves
    the store and everything else exactly as it was. *)
Theorem handleAddTodo_blank_ignored (w : World) :
  trim (title w) = [] ->
  forallb isWhiteSpace (title w) = true /\
  outcome handleAddTodo w = Returned tt /\
  exec handleAddTodo w = w /\
  todos (exec handleAddTodo w) = todos w.
Proof.
  intros H. split; [now apply trim_nil|].
  unfold outcome, exec. rewrite (handleAddTodo_blank _ H). auto.
Qed.

(** The slice's own [addTodo] checks nothing: dispatched with any title,
    blank ones included, it puts a record at the front. *)
Lemma addTodo_unchecked (t : jstr) (w : World) :
  todos (exec (a <- addTodo t ;; dispatch a) w) =
  Todo.mk (nanoid_at (nanoid_calls (env w))) t false (now (env w)) :: todos w.
Proof. reflexivity. Qed.

(** C10. When the trimmed text is not empty, the record [handleAddTodo]
    stores has the trimmed text as its title, and the banner card is
    rendered ([bannerVisible] set and [lastTodo] present, an object with
    that same trimmed title, [lastAction] add) and shows Added: followed
    by that same trimmed text in double quotes; the trimmed text is the
    input without a longest run of white space at either end. *)
Theorem handleAddTodo_trims (w : World) :
  trim (title w) <> [] ->
  let w' := exec handleAddTodo w in
  (exists r, todos w' = r :: todos w /\ Todo.title r = trim (title w)) /\
  bannerVisible (banner w') = true /\
  bannerMessage (banner w') =
    lit "Added: " ++ [dquote] ++ trim (title w) ++ [dquote] /\
  (exists t, lastTodo (banner w') = Some t /\ Todo.title t = trim (title w)) /\
  lastAction (banner w') = Some (lit "add") /\
  banner_rendered (banner w') = true /\
  banner_text (banner w') =
    Some (lit "Added: " ++ [dquote] ++ trim (title w) ++ [dquote]) /\
  exists l r,
    title w = l ++ trim (title w) ++ r /\
    forallb isWhiteSpace l = true /\ forallb isWhiteSpace r = true /\
    starts_clean (trim (title w)) /\ ends_clean (trim (title w)).
Proof.
  intros H w'. subst w'. unfold exec. rewrite (handleAddTodo_eq _ H). simpl.
  split; [exists (stored_todo w); auto|].
  split; [reflexivity|]. split; [reflexivity|].
  split; [exists (local_todo w); auto|].
  split; [reflexivity|]. split; [reflexivity|]. split; [reflexivity|].
  apply trim_spec.
Qed.

(** The banner an add leaves refers to [local_todo], the store holds
    [stored_todo]: two objects with ids from two [nanoid] calls. *)
Lemma handleAddTodo_banner (w : World) :
  trim (title w) <> [] ->
  Showing (added_message (trim (title w))) (local_todo w) (lit "add")
    (exec handleAddTodo w) /\
  todos (exec handleAddTodo w) = stored_todo w :: todos w.
Proof.
  intros H. unfold Showing, exec. rewrite (handleAddTodo_eq _ H). auto.
Qed.

(** Undo right after an add filters the store by the id of [local_todo],
    which no stored record carries: the record just added stays. *)
Lemma handleUndo_after_add (w : World) :
  store_ok w -> trim (title w) <> [] ->
  let w' := exec handleUndo (exec handleAddTodo w) in
  todos w' = stored_todo w :: todos w /\ Idle w'.
Proof.
  intros [Hi Hnd] H w'. subst w'.
  destruct (handleAddTodo_banner _ H) as [Hb Ht].
  assert (E : exec handleUndo (exec handleAddTodo w) =
              snd (handleUndo (exec handleAddTodo w))) by reflexivity.
  rewrite E, (handleUndo_add _ _ _ Hb). simpl.
  split; [|reflexivity]. unfold todos at 1. simpl. rewrite Ht.
  apply removeTodo_absent. simpl. intros [E'|Hin].
  - apply nanoid_fresh in E'. lia.
  - revert Hin. apply unissued_id_absent; [exact Hi | lia].
Qed.

(** C4. In a store whose ids are distinct and were issued by [nanoid],
    an add with non-empty trimmed text puts exactly one new record at the
    front, not done, with an id no other record has, and leaves the
    records already there as they were and in their order; two adds in a
    row leave the second record first and the first record second. *)
Theorem handleAddTodo_prepends (w : World) :
  store_ok w ->
  (trim (title w) <> [] ->
   let w' := exec handleAddTodo w in
   exists r,
     todos w' = r :: todos w /\
     List.length (todos w') = S (List.length (todos w)) /\
     Todo.done r = false /\
     ~ In (Todo.id r) (map Todo.id (todos w)) /\
     store_ok w') /\
  (forall a b, trim a <> [] -> trim b <> [] ->
   exists ra rb,
     todos (run [Typed a; PressAdd; Typed b; PressAdd] w) = rb :: ra :: todos w /\
     Todo.title ra = trim a /\ Todo.title rb = trim b /\
     Todo.done ra = false /\ Todo.done rb = false /\
     Todo.id ra <> Todo.id rb).
Proof.
  intros Hok. split.
  - intros H w'. subst w'. exists (stored_todo w).
    assert (Hok' : store_ok (exec handleAddTodo w))
      by (eapply store_ok_change; [apply (step_store_change PressAdd) | exact Hok]).
    destruct (handleAddTodo_banner _ H) as [_ Ht]. rewrite Ht.
    repeat split; try apply Hok'.
    destruct Hok' as [_ Hnd]. rewrite Ht in Hnd. simpl in Hnd.
    now inversion Hnd.
  - intros a b Ha Hb. unfold run. simpl.
    set (w1 := exec (setTitle a) w).
    assert (H1 : trim (title w1) <> []) by exact Ha.
    destruct (handleAddTodo_banner _ H1) as [_ Ht1].
    set (w2 := exec handleAddTodo w1) in *.
    set (w3 := exec (setTitle b) w2).
    assert (H3 : trim (title w3) <> []) by exact Hb.
    destruct (handleAddTodo_banner _ H3) as [_ Ht3].
    exists (stored_todo w1), (stored_todo w3).
    rewrite Ht3. change (todos w3) with (todos w2). rewrite Ht1.
    repeat split.
    simpl. intros E. apply nanoid_fresh in E.
    unfold w3, w2, exec in E. rewrite (handleAddTodo_eq _ H1) in E.
    simpl in E. lia.
Qed.

(** ** Completing and undoing *)

(** C8. Pressing Done on a record the store holds as not done marks it
    done and shows the Completed banner for it; undo right after gives
    the record its [done = false] back, restores the list of todos, and
    leaves the controller Idle. *)
Theorem undo_after_complete (w : World) (x : Todo.t) :
  NoDup (map Todo.id (todos w)) -> In x (todos w) -> Todo.done x = false ->
  let w1 := exec (handleToggleDone x) w in
  let w2 := exec handleUndo w1 in
  Showing (lit "Completed: " ++ [dquote] ++ Todo.title x ++ [dquote]) x
    (lit "done") w1 /\
  find_by_id (Todo.id x) (todos w1) = Some (Todo.flip x) /\
  Todo.done (Todo.flip x) = true /\
  outcome handleUndo w1 = Returned tt /\
  find_by_id (Todo.id x) (todos w2) = Some x /\
  todos w2 = todos w /\
  Idle w2.
Proof.
  intros Hnd Hin Hd w1 w2.
  pose proof (find_by_id_NoDup _ _ Hnd Hin) as Hf.
  assert (E1 : w1 = exec (showBanner (completed_message (Todo.title x)) x (lit "done"))
                      (exec (dispatch (ToggleTodo (Todo.id x))) w)).
  { unfold w1, exec at 1. rewrite handleToggleDone_eq, Hd. reflexivity. }
  assert (Hs : Showing (completed_message (Todo.title x)) x (lit "done") w1)
    by (rewrite E1; reflexivity).
  assert (Ht1 : todos w1 = toggleTodo (Todo.id x) (todos w))
    by (rewrite E1; reflexivity).
  assert (E2 : w2 = snd (handleUndo w1)) by reflexivity.
  rewrite (handleUndo_done _ _ _ Hs) in E2. simpl in E2.
  assert (Ht2 : todos w2 = todos w).
  { rewrite E2. unfold todos at 1. simpl. rewrite Ht1.
    apply toggleTodo_involutive. }
  split; [exact Hs|]. rewrite Ht1, Ht2.
  split; [now apply find_by_id_toggleTodo|].
  split; [simpl; now rewrite Hd|].
  split; [apply handleUndo_returns|].
  split; [exact Hf|]. split; [reflexivity|]. rewrite E2. reflexivity.
Qed.

(** C9. Pressing the toggle on a record that is marked done leaves the
    controller Idle whatever its state was: banner not visible, message
    empty, no [lastTodo], no [lastAction]; no timer is scheduled, and the
    store has had [toggleTodo] applied for that id. *)
Theorem uncomplete_goes_idle (w : World) (x : Todo.t) :
  Todo.done x = true ->
  let w' := exec (handleToggleDone x) w in
  Idle w' /\
  bannerVisible (banner w') = false /\
  bannerMessage (banner w') = [] /\
  lastTodo (banner w') = None /\
  lastAction (banner w') = None /\
  timers (env w') = timers (env w) /\
  todos w' = toggleTodo (Todo.id x) (todos w).
Proof.
  intros Hd w'. subst w'. unfold exec at 1 2 3 4 5 6 7, Idle.
  rewrite handleToggleDone_eq, Hd. simpl. repeat split.
Qed.

(** ** The dismissal timers *)

Lemma elapse_due (dt : N) (w : World) (d : Z) :
  In d (timers (env w)) -> (d <= now (env w) + Z.of_N dt)%Z ->
  Idle (elapse dt w).
Proof.
  intros Hin Hd. unfold elapse.
  destruct (filter _ (timers (env w))) as [|d' l] eqn:E.
  - exfalso. assert (H : In d []); [|destruct H].
    rewrite <- E. apply filter_In. split; [exact Hin|]. now apply Z.leb_le.
  - reflexivity.
Qed.

Lemma elapse_not_due (dt : N) (w : World) :
  (forall d, In d (timers (env w)) -> (now (env w) + Z.of_N dt < d)%Z) ->
  banner (elapse dt w) = banner w /\ timers (env (elapse dt w)) = timers (env w).
Proof.
  intros H. unfold elapse.
  assert (Hall : forall d, In d (timers (env w)) ->
                   (d <=? now (env w) + Z.of_N dt)%Z = false)
    by (intros d Hd; apply Z.leb_gt, H, Hd).
  induction (timers (env w)) as [|d l IH]; simpl; [auto|].
  rewrite (Hall d) by (now left). simpl.
  destruct IH as [Hb Ht].
  - intros d' Hd'. apply H. now right.
  - intros d' Hd'. apply Hall. now right.
  - destruct (filter _ l) eqn:E; simpl in *; split; auto; now rewrite Ht.
Qed.

(** C2 (as the code has it). [showBanner] schedules one dismissal due
    3000 ms later and leaves every timer scheduled before it pending.
    With no call in between, the banner is Idle once 3000 ms have passed;
    before that it is still the banner just shown exactly when no
    earlier timer has come due, and an earlier timer that comes due
    resets it. *)
Theorem showBanner_timers (m : jstr) (x : Todo.t) (a : jstr) (w : World) (dt : N) :
  let w1 := exec (showBanner m x a) w in
  timers (env w1) = timers (env w) ++ [now (env w) + 3000]%Z /\
  Showing m x a w1 /\
  ((3000 <= dt)%N -> Idle (elapse dt w1)) /\
  ((dt < 3000)%N ->
   (forall d, In d (timers (env w)) -> (now (env w) + Z.of_N dt < d)%Z) ->
   Showing m x a (elapse dt w1)) /\
  ((dt < 3000)%N ->
   (exists d, In d (timers (env w)) /\ (d <= now (env w) + Z.of_N dt)%Z) ->
   Idle (elapse dt w1)).
Proof.
  intros w1. subst w1. unfold exec. rewrite showBanner_eq. simpl.
  split; [reflexivity|]. split; [reflexivity|]. split; [|split].
  - intros Hdt. apply elapse_due with (d := (now (env w) + 3000)%Z); simpl.
    + apply in_or_app. right. now left.
    + lia.
  - intros Hdt Hold. unfold Showing.
    match goal with |- banner (elapse dt ?v) = _ =>
      destruct (elapse_not_due dt v) as [Hb _]; [|rewrite Hb; reflexivity]
    end.
    simpl. intros d Hd. apply in_app_or in Hd. destruct Hd as [Hd|[<-|[]]].
    + now apply Hold.
    + lia.
  - intros Hdt (d & Hin & Hd). apply elapse_due with (d := d); simpl.
    + apply in_or_app. now left.
    + exact Hd.
Qed.

(** The states the application reaches from start-up. *)
Lemma reachable_store_ok (t0 : Z) (es : list Event) :
  store_ok (run es (initial t0)).
Proof. apply store_ok_run, store_ok_initial. Qed.

(** ** More on the reducers *)

Lemma In_removeTodo (p : jstr) (its : list Todo.t) (y : Todo.t) :
  In y (removeTodo p its) <-> In y its /\ Todo.id y <> p.
Proof.
  unfold removeTodo. rewrite filter_In, negb_true_iff, strict_eq_false. tauto.
Qed.


(** X5. [removeTodo] keeps exactly the records whose id differs from the
    payload; when ids are distinct and the id is present, exactly one
    record goes. *)
Theorem removeTodo_exact (p : jstr) (its : list Todo.t) :
  (forall y, In y (removeTodo p its) <-> In y its /\ Todo.id y <> p) /\
  (NoDup (map Todo.id its) -> In p (map Todo.id its) ->
   S (List.length (removeTodo p its)) = List.length its).
Proof.
  split; [intros y; apply In_removeTodo|].
  induction its as [|x rest IH]; simpl; [tauto|].
  intros Hnd Hin. inversion Hnd as [|? ? Hx Hrest]; subst.
  unfold removeTodo in *. simpl.
  destruct (strict_eq (Todo.id x) p) eqn:E; simpl.
  - apply strict_eq_true in E. subst p.
    fold (removeTodo (Todo.id x) rest). now rewrite removeTodo_absent.
  - apply strict_eq_false in E. destruct Hin as [Hin|Hin]; [contradiction|].
    f_equal. now apply IH.
Qed.

Lemma toggleTodo_removeTodo (p q : jstr) (its : list Todo.t) :
  toggleTodo p (removeTodo q its) = removeTodo q (toggleTodo p its).
Proof.
  unfold removeTodo. induction its as [|x rest IH]; simpl; [reflexivity|].
  destruct (strict_eq (Todo.id x) q) eqn:Eq; simpl.
  - destruct (strict_eq (Todo.id x) p) eqn:Ep; simpl; rewrite Eq; simpl.
    + apply strict_eq_true in Eq, Ep. subst p.
      apply toggleTodo_absent. rewrite Eq. apply removeTodo_gone.
    + exact IH.
  - destruct (strict_eq (Todo.id x) p) eqn:Ep; simpl; rewrite Eq; simpl.
    + reflexivity.
    + now rewrite IH.
Qed.

(** X6. The id-directed store operations commute with one another,
    whatever the two ids are: two removals, two toggles, a toggle and a
    removal. *)
Theorem store_operations_commute (p q : jstr) (its : list Todo.t) :
  removeTodo p (removeTodo q its) = removeTodo q (removeTodo p its) /\
  toggleTodo p (toggleTodo q its) = toggleTodo q (toggleTodo p its) /\
  toggleTodo p (removeTodo q its) = removeTodo q (toggleTodo p its).
Proof.
  split; [|split; [|apply toggleTodo_removeTodo]].
  - unfold removeTodo. induction its as [|x rest IH]; simpl; [reflexivity|].
    destruct (strict_eq (Todo.id x) q) eqn:Eq;
      destruct (strict_eq (Todo.id x) p) eqn:Ep; simpl;
      rewrite ?Eq, ?Ep; simpl; rewrite ?IH; reflexivity.
  - induction its as [|x rest IH]; simpl; [reflexivity|].
    destruct (strict_eq (Todo.id x) q) eqn:Eq;
      destruct (strict_eq (Todo.id x) p) eqn:Ep; simpl;
      rewrite ?Eq, ?Ep; simpl; rewrite ?IH; reflexivity.
Qed.

(** X7. When [find] meets a record for the payload, [toggleTodo]
    replaces that one record, in place, by the same record with [done]
    negated; every other record, and the id, title and creation time of
    the record itself, stay as they are. *)
Theorem toggleTodo_exact (p : jstr) (its : list Todo.t) (x : Todo.t) :
  find_by_id p its = Some x ->
  exists pre post,
    its = pre ++ x :: post /\
    toggleTodo p its = pre ++ Todo.flip x :: post /\
    ~ In p (map Todo.id pre) /\
    Todo.id x = p /\
    Todo.mk (Todo.id x) (Todo.title x) (negb (Todo.done x)) (Todo.createdAt x)
    = Todo.flip x.
Proof.
  unfold find_by_id. induction its as [|y rest IH]; simpl; [discriminate|].
  destruct (strict_eq (Todo.id y) p) eqn:E.
  - intros [= <-]. exists [], rest. apply strict_eq_true in E.
    repeat split; auto.
  - intros H. destruct (IH H) as (pre & post & H1 & H2 & H3 & H4 & H5).
    exists (y :: pre), post. apply strict_eq_false in E.
    repeat split; simpl; try congruence. tauto.
Qed.

(** ** The two lists *)

Lemma undone_done_length (its : list Todo.t) :
  List.length (undoneTodos its) + List.length (doneTodos its) = List.length its.
Proof.
  unfold undoneTodos, doneTodos.
  induction its as [|x rest IH]; simpl; [reflexivity|].
  destruct (Todo.done x); simpl; lia.
Qed.

(** X3. The To Do list and the Done list split the store: each record is
    in exactly one of them, according to its [done] flag; together they
    are a rearrangement of the store, and each list keeps the store's
    ids distinct when they are. *)
Theorem lists_partition_store (its : list Todo.t) :
  Permutation its (undoneTodos its ++ doneTodos its) /\
  List.length (undoneTodos its) + List.length (doneTodos its) = List.length its /\
  (forall x, In x (undoneTodos its) <-> In x its /\ Todo.done x = false) /\
  (forall x, In x (doneTodos its) <-> In x its /\ Todo.done x = true) /\
  (forall x, ~ (In x (undoneTodos its) /\ In x (doneTodos its))).
Proof.
  split; [|split; [apply undone_done_length|]].
  - unfold undoneTodos, doneTodos.
    induction its as [|x rest IH]; simpl; [constructor|].
    destruct (Todo.done x); simpl.
    + now apply Permutation_cons_app.
    + now constructor.
  - assert (Hu : forall x, In x (undoneTodos its) <-> In x its /\ Todo.done x = false)
      by (intros x; unfold undoneTodos; now rewrite filter_In, negb_true_iff).
    assert (Hd : forall x, In x (doneTodos its) <-> In x its /\ Todo.done x = true)
      by (intros x; unfold doneTodos; now rewrite filter_In).
    split; [exact Hu|]. split; [exact Hd|].
    intros x [H1 H2]. apply Hu in H1. apply Hd in H2.
    destruct H1 as [_ H1]. destruct H2 as [_ H2]. congruence.
Qed.

Lemma doneTodos_toggle_length (p : jstr) (its : list Todo.t) (x : Todo.t) :
  find_by_id p its = Some x ->
  List.length (doneTodos (toggleTodo p its)) + (if Todo.done x then 1 else 0) =
  List.length (doneTodos its) + (if Todo.done x then 0 else 1).
Proof.
  unfold find_by_id, doneTodos. induction its as [|y rest IH]; simpl; [discriminate|].
  destruct (strict_eq (Todo.id y) p) eqn:E.
  - intros [= <-]. simpl. destruct (Todo.done y); simpl; lia.
  - intros H. simpl. specialize (IH H). destruct (Todo.done y); simpl; lia.
Qed.

(** ** More on the handlers *)

Lemma trimStart_of_clean (s : jstr) : starts_clean s -> trimStart s = s.
Proof. destruct s as [|c r]; simpl; [reflexivity|]. now intros ->. Qed.

Lemma trim_of_clean (s : jstr) : starts_clean s -> ends_clean s -> trim s = s.
Proof.
  intros H1 H2. unfold trim, trimEnd. rewrite (trimStart_of_clean s H1).
  unfold ends_clean in H2. rewrite (trimStart_of_clean _ H2).
  apply rev_involutive.
Qed.

Lemma trim_idempotent (s : jstr) : trim (trim s) = trim s.
Proof.
  destruct (trim_spec s) as (l & r & _ & _ & _ & H1 & H2).
  now apply trim_of_clean.
Qed.

(** [handleUndo] either does nothing at all or leaves the banner reset. *)
Lemma handleUndo_cases (w : World) :
  exec handleUndo w = w \/
  (Idle (exec handleUndo w) /\ title (exec handleUndo w) = title w).
Proof.
  unfold exec, handleUndo, bind, gets, nothing_to_undo, Idle.
  destruct (lastTodo (banner w)) as [x|]; simpl; [|now left].
  destruct (lastAction (banner w)) as [a|]; simpl; [|now left].
  case_ifs; simpl; auto.
Qed.

Lemma elapse_cases (dt : N) (w : World) :
  let t := (now (env w) + Z.of_N dt)%Z in
  (Forall (fun d => (t < d)%Z) (timers (env w)) /\
   elapse dt w =
   mkWorld (store w) (title w) (banner w)
     (mkEnv t (timers (env w)) (nanoid_calls (env w)) (haptics (env w)))) \/
  elapse dt w =
  mkWorld (store w) (title w) idle_banner
    (mkEnv t (filter (fun d => negb (d <=? t)%Z) (timers (env w)))
       (nanoid_calls (env w)) (haptics (env w))).
Proof.
  intros t. unfold elapse. fold t.
  destruct (filter (fun d => (d <=? t)%Z) (timers (env w))) as [|d l] eqn:E.
  - left. assert (H : Forall (fun d => (t < d)%Z) (timers (env w))).
    { apply Forall_forall. intros d Hd. apply Z.leb_gt.
      destruct (d <=? t)%Z eqn:Ed; [|reflexivity].
      assert (Hin : In d []) by (rewrite <- E; apply filter_In; auto).
      destruct Hin. }
    split; [exact H|]. unfold with_env. simpl. do 2 f_equal.
    clear E. induction H as [|d l Hd Hl IH]; simpl; [reflexivity|].
    apply Z.leb_gt in Hd. rewrite Hd. simpl. now rewrite IH.
  - right. reflexivity.
Qed.

Lemma handleToggleDone_exec (x : Todo.t) (w : World) :
  exec (handleToggleDone x) w =
  mkWorld (mkRoot (darkMode (store w)) (toggleTodo (Todo.id x) (todos w)))
    (title w)
    (if Todo.done x then idle_banner
     else mkBanner true (completed_message (Todo.title x)) (Some x)
            (Some (lit "done")))
    (if Todo.done x then env w
     else mkEnv (now (env w)) (timers (env w) ++ [now (env w) + 3000]%Z)
            (nanoid_calls (env w)) (haptics (env w))).
Proof.
  unfold exec. rewrite handleToggleDone_eq. destruct (Todo.done x); simpl.
  - now destruct w as [s ti b [n tm c h]].
  - reflexivity.
Qed.

(** What one event does to the list of todos and to the clock. *)
Lemma step_todos_cases (e : Event) (w : World) :
  (now (env w) <= now (env (step e w)))%Z /\
  (todos (step e w) = todos w \/
   (e = PressAdd /\ trim (title w) <> [] /\
    todos (step e w) = stored_todo w :: todos w /\
    now (env (step e w)) = now (env w)) \/
   (exists p, todos (step e w) = toggleTodo p (todos w)) \/
   (exists p, todos (step e w) = removeTodo p (todos w)) \/
   todos (step e w) = []).
Proof.
  destruct e as [s| |x|i| | | | |dt]; simpl.
  - split; [reflexivity | now left].
  - unfold exec. destruct (jstr_eq_dec (trim (title w)) []) as [E|E].
    + rewrite (handleAddTodo_blank _ E). split; [reflexivity | now left].
    + rewrite (handleAddTodo_eq _ E). split; [reflexivity|].
      right; left. repeat split. exact E.
  - rewrite handleToggleDone_exec. split.
    + destruct (Todo.done x); reflexivity.
    + right; right; left. now exists (Todo.id x).
  - split; [reflexivity|]. right; right; right; left. now exists i.
  - split; [reflexivity|]. now repeat right.
  - rewrite handleUndo_env. split; [reflexivity|].
    destruct (handleUndo_todos w) as [H | [[i H] | [i H]]].
    + now left.
    + right; right; right; left. now exists i.
    + right; right; left. now exists i.
  - split; [reflexivity | now left].
  - split; [reflexivity | now left].
  - destruct (elapse_store_env dt w) as (Hs & _ & Hn). rewrite Hn.
    split; [lia|]. left. unfold todos. now rewrite Hs.
Qed.

Lemma toggleTodo_length (p : jstr) (its : list Todo.t) :
  List.length (toggleTodo p its) = List.length its.
Proof.
  rewrite <- (length_map Todo.id (toggleTodo p its)), map_id_toggleTodo.
  apply length_map.
Qed.

(** With distinct ids, the only record of the toggled list that carries
    the id of a toggled record is that record with [done] negated. *)
Lemma toggleTodo_unique (its : list Todo.t) (z y : Todo.t) :
  NoDup (map Todo.id its) -> In z its ->
  In y (toggleTodo (Todo.id z) its) -> Todo.id y = Todo.id z ->
  y = Todo.flip z.
Proof.
  induction its as [|a rest IH]; simpl; [tauto|].
  intros Hnd Hz Hy E. inversion Hnd as [|? ? Ha Hrest]; subst.
  destruct (strict_eq (Todo.id a) (Todo.id z)) eqn:Ea.
  - apply strict_eq_true in Ea.
    assert (Hza : z = a).
    { destruct Hz as [Hz|Hz]; [auto|]. exfalso. apply Ha. rewrite Ea.
      now apply in_map. }
    subst z. destruct Hy as [Hy|Hy]; [auto|].
    exfalso. apply Ha. rewrite <- E. now apply in_map.
  - apply strict_eq_false in Ea.
    destruct Hz as [Hz|Hz]; [subst; contradiction|].
    destruct Hy as [Hy|Hy]; [subst; congruence|].
    now apply IH.
Qed.

Lemma handleAddTodo_render (w : World) :
  handleAddTodo w = handleAddTodo_of (title w) w.
Proof. reflexivity. Qed.

Lemma handleAddTodo_of_eq (t : jstr) (w : World) :
  trim t <> [] ->
  handleAddTodo_of t w =
  (Returned tt,
   mkWorld
     (mkRoot (darkMode (store w))
        (Todo.mk (nanoid_at (S (nanoid_calls (env w)))) (trim t) false
           (now (env w)) :: todos w)) []
     (mkBanner true (added_message (trim t))
        (Some (Todo.mk (nanoid_at (nanoid_calls (env w))) (trim t) false
                 (now (env w))))
        (Some (lit "add")))
     (mkEnv (now (env w)) (timers (env w) ++ [now (env w) + 3000]%Z)
        (S (S (nanoid_calls (env w)))) (S (haptics (env w))))).
Proof.
  intros H. apply not_str_false in H. unfold handleAddTodo_of. rewrite H.
  reflexivity.
Qed.

(** X2. [handleAddTodo] run in a state is the closure of that state's
    render.  Once the component has re-rendered after a call, its
    [handleAddTodo] does nothing: the text field was emptied, or was
    blank already.  The closure of the earlier render, run a second time
    with no re-render in between, still reads the old non-blank text and
    stores a second record with the same title. *)
Theorem handleAddTodo_twice (w : World) :
  let stale := handleAddTodo_of (title w) in
  let w1 := exec handleAddTodo w in
  handleAddTodo w = stale w /\
  exec handleAddTodo w1 = w1 /\
  (trim (title w) <> [] ->
   title w1 = [] /\
   exists r1 r2,
     todos w1 = r1 :: todos w /\
     todos (exec stale w1) = r2 :: r1 :: todos w /\
     Todo.title r1 = trim (title w) /\ Todo.title r2 = trim (title w)).
Proof.
  intros stale w1. split; [reflexivity|].
  unfold w1, stale, exec. destruct (jstr_eq_dec (trim (title w)) []) as [E|E].
  - rewrite (handleAddTodo_blank _ E). simpl.
    rewrite (handleAddTodo_blank _ E). split; [reflexivity | contradiction].
  - rewrite (handleAddTodo_eq _ E). simpl. split; [reflexivity|].
    intros _. split; [reflexivity|].
    rewrite (handleAddTodo_of_eq _ _ E). simpl.
    exists (stored_todo w),
      (Todo.mk (nanoid_at (S (S (S (nanoid_calls (env w)))))) (trim (title w))
         false (now (env w))).
    repeat split.
Qed.

Lemma handleUndo_render (w : World) : handleUndo w = handleUndo_of (banner w) w.
Proof. reflexivity. Qed.

Lemma handleUndo_of_add (m : jstr) (x : Todo.t) (w : World) :
  handleUndo_of (mkBanner true m (Some x) (Some (lit "add"))) w =
  (Returned tt,
   mkWorld (mkRoot (darkMode (store w)) (removeTodo (Todo.id x) (todos w)))
     (title w) idle_banner (env w)).
Proof. reflexivity. Qed.

Lemma handleUndo_of_done (m : jstr) (x : Todo.t) (w : World) :
  handleUndo_of (mkBanner true m (Some x) (Some (lit "done"))) w =
  (Returned tt,
   mkWorld (mkRoot (darkMode (store w)) (toggleTodo (Todo.id x) (todos w)))
     (title w) idle_banner (env w)).
Proof. reflexivity. Qed.

(** X12. [handleUndo] run in a state is the closure of that state's
    render.  Once the component has re-rendered after a call that found
    something to undo, the banner card and its Undo button are gone, and
    the re-rendered [handleUndo] would do nothing.  The closure of the
    earlier render, run a second time with no re-render in between,
    dispatches again: on a Completed banner it toggles the record once
    more, giving back the store as it was before the first undo; on an
    Added banner it filters once more, which changes nothing further. *)
Theorem handleUndo_twice (w : World) :
  let stale := handleUndo_of (banner w) in
  let w1 := exec handleUndo w in
  handleUndo w = stale w /\
  exec handleUndo w1 = w1 /\
  (nothing_to_undo (banner w) = false ->
   Idle w1 /\ banner_rendered (banner w1) = false) /\
  (forall m x, Showing m x (lit "done") w ->
     todos w1 = toggleTodo (Todo.id x) (todos w) /\
     todos (exec stale w1) = todos w /\ Idle (exec stale w1)) /\
  (forall m x, Showing m x (lit "add") w ->
     todos w1 = removeTodo (Todo.id x) (todos w) /\
     todos (exec stale w1) = todos w1 /\ Idle (exec stale w1)).
Proof.
  intros stale w1. split; [reflexivity|]. split; [|split; [|split]].
  - unfold w1. destruct (handleUndo_cases w) as [H|[H _]].
    + now rewrite !H.
    + unfold exec at 1. rewrite handleUndo_nothing; [reflexivity|].
      unfold Idle in H. now rewrite H.
  - intros Hn. unfold w1, exec, handleUndo, bind, gets. rewrite Hn.
    unfold nothing_to_undo in Hn.
    destruct (lastTodo (banner w)) as [x|]; [|discriminate Hn].
    destruct (lastAction (banner w)) as [a|]; [|discriminate Hn].
    case_ifs; split; reflexivity.
  - intros m x Hs.
    assert (E1 : w1 = mkWorld (mkRoot (darkMode (store w))
                                 (toggleTodo (Todo.id x) (todos w)))
                        (title w) idle_banner (env w)).
    { unfold w1, exec. now rewrite (handleUndo_done _ _ _ Hs). }
    assert (E2 : exec stale w1 =
                 mkWorld (mkRoot (darkMode (store w1))
                            (toggleTodo (Todo.id x) (todos w1)))
                   (title w1) idle_banner (env w1)).
    { unfold stale, exec. unfold Showing in Hs.
      rewrite Hs, handleUndo_of_done. reflexivity. }
    rewrite E2. split; [now rewrite E1|]. split; [|reflexivity].
    unfold todos at 1. simpl. rewrite E1. unfold todos at 1. simpl.
    apply toggleTodo_involutive.
  - intros m x Hs.
    assert (E1 : w1 = mkWorld (mkRoot (darkMode (store w))
                                 (removeTodo (Todo.id x) (todos w)))
                        (title w) idle_banner (env w)).
    { unfold w1, exec. now rewrite (handleUndo_add _ _ _ Hs). }
    assert (E2 : exec stale w1 =
                 mkWorld (mkRoot (darkMode (store w1))
                            (removeTodo (Todo.id x) (todos w1)))
                   (title w1) idle_banner (env w1)).
    { unfold stale, exec. unfold Showing in Hs.
      rewrite Hs, handleUndo_of_add. reflexivity. }
    rewrite E2. split; [now rewrite E1|]. split; [|reflexivity].
    unfold todos at 1. simpl. rewrite E1. unfold todos at 1 3. simpl.
    apply removeTodo_absent, removeTodo_gone.
Qed.


(** X4. Pressing the toggle on a record of a store with distinct ids
    moves exactly that record from one list to the other: the list it was
    in loses one entry, the other gains one, the record as it was is no
    longer stored and the same record with [done] negated is. *)
Theorem handleToggleDone_moves (w : World) (x : Todo.t) :
  NoDup (map Todo.id (todos w)) -> In x (todos w) ->
  let its' := todos (exec (handleToggleDone x) w) in
  (if Todo.done x
   then S (List.length (doneTodos its')) = List.length (doneTodos (todos w)) /\
        List.length (undoneTodos its') = S (List.length (undoneTodos (todos w))) /\
        In (Todo.flip x) (undoneTodos its')
   else List.length (doneTodos its') = S (List.length (doneTodos (todos w))) /\
        S (List.length (undoneTodos its')) = List.length (undoneTodos (todos w)) /\
        In (Todo.flip x) (doneTodos its')) /\
  ~ In x its' /\
  List.length its' = List.length (todos w).
Proof.
  intros Hnd Hin its'.
  assert (E : its' = toggleTodo (Todo.id x) (todos w))
    by (unfold its'; now rewrite handleToggleDone_exec).
  pose proof (find_by_id_NoDup _ _ Hnd Hin) as Hf.
  pose proof (doneTodos_toggle_length _ _ _ Hf) as Hd.
  pose proof (undone_done_length its') as H1.
  pose proof (undone_done_length (todos w)) as H2.
  pose proof (toggleTodo_length (Todo.id x) (todos w)) as Hl.
  assert (Hflip : In (Todo.flip x) its').
  { rewrite E. destruct (toggleTodo_exact _ _ _ Hf) as (pre & post & _ & Ht & _).
    rewrite Ht. apply in_or_app. right. now left. }
  rewrite <- E in Hd, Hl.
  split; [|split; [|exact Hl]].
  - destruct (Todo.done x) eqn:Ed.
    + repeat split; try lia.
      unfold undoneTodos. apply filter_In. split; [exact Hflip|].
      simpl. now rewrite Ed.
    + repeat split; try lia.
      unfold doneTodos. apply filter_In. split; [exact Hflip|].
      simpl. now rewrite Ed.
  - intros Hx. rewrite E in Hx.
    pose proof (toggleTodo_unique _ _ _ Hnd Hin Hx eq_refl) as Hxx.
    apply (f_equal Todo.done) in Hxx. simpl in Hxx.
    destruct (Todo.done x); discriminate.
Qed.

(** ** Invariants of every run *)

Lemma run_invariant (P : World -> Prop) :
  (forall e w, P w -> P (step e w)) ->
  forall es w, P w -> P (run es w).
Proof.
  intros Hstep es. unfold run.
  induction es as [|e es IH]; simpl; intros w Hw; [exact Hw|].
  apply IH, Hstep, Hw.
Qed.

(** What one event, other than the passing of time, does to the banner
    cells and to the timers. *)
Lemma step_banner_cases (e : Event) (w : World) :
  (exists dt, e = Wait dt) \/
  (now (env (step e w)) = now (env w) /\
   ((banner (step e w) = banner w /\ timers (env (step e w)) = timers (env w)) \/
    (banner (step e w) = idle_banner /\ timers (env (step e w)) = timers (env w)) \/
    (exists x m a,
       banner (step e w) = mkBanner true m (Some x) (Some a) /\
       timers (env (step e w)) = timers (env w) ++ [now (env w) + 3000]%Z /\
       ((a = lit "add" /\ m = added_message (Todo.title x)) \/
        (a = lit "done" /\ m = completed_message (Todo.title x) /\
         Todo.done x = false))))).
Proof.
  destruct e as [s| |x|i| | | | |dt]; simpl; [| | | | | | | |left; now exists dt];
    right.
  - split; [reflexivity|]. now left.
  - unfold exec. destruct (jstr_eq_dec (trim (title w)) []) as [E|E].
    + rewrite (handleAddTodo_blank _ E). split; [reflexivity|]. now left.
    + rewrite (handleAddTodo_eq _ E). split; [reflexivity|]. right; right.
      exists (local_todo w), (added_message (trim (title w))), (lit "add").
      simpl. repeat split. now left.
  - rewrite handleToggleDone_exec. destruct (Todo.done x) eqn:Ed; simpl.
    + split; [reflexivity|]. right; left. now split.
    + split; [reflexivity|]. right; right.
      exists x, (completed_message (Todo.title x)), (lit "done").
      repeat split. right. now repeat split.
  - split; [reflexivity|]. now left.
  - split; [reflexivity|]. now left.
  - rewrite handleUndo_env. split; [reflexivity|].
    destruct (handleUndo_cases w) as [H|[H _]].
    + left. now rewrite H.
    + right; left. now split.
  - split; [reflexivity|]. right; left. now split.
  - split; [reflexivity|]. now left.
Qed.

Lemma banner_ok_step (e : Event) (w : World) : banner_ok w -> banner_ok (step e w).
Proof.
  intros Hw. unfold banner_ok, Idle, Showing in *.
  destruct (step_banner_cases e w)
    as [[dt ->]|[_ [[Hb _]|[[Hb _]|(x & m & a & Hb & _ & Ha)]]]].
  - simpl. destruct (elapse_cases dt w) as [[_ H]|H]; rewrite H; simpl; auto.
  - rewrite Hb. exact Hw.
  - now left.
  - right. exists x. rewrite Hb.
    destruct Ha as [[-> ->]|(-> & -> & Hd)]; [now left | right; now split].
Qed.

Lemma timers_ok_step (e : Event) (w : World) : timers_ok w -> timers_ok (step e w).
Proof.
  intros [Hf Hv]. unfold timers_ok.
  destruct (step_banner_cases e w)
    as [[dt ->]|[Hn [[Hb Ht]|[[Hb Ht]|(x & m & a & Hb & Ht & _)]]]].
  - simpl. destruct (elapse_cases dt w) as [[Hlate H]|H]; rewrite H; simpl.
    + split; [|exact Hv]. rewrite Forall_forall in *. intros d Hd.
      specialize (Hf d Hd). specialize (Hlate d Hd). simpl in Hlate. lia.
    + split; [|discriminate]. rewrite Forall_forall in *. intros d Hd.
      apply filter_In in Hd. destruct Hd as [Hd Hlate].
      apply negb_true_iff, Z.leb_gt in Hlate. specialize (Hf d Hd). lia.
  - rewrite Hn, Hb, Ht. now split.
  - rewrite Hn, Hb, Ht. split; [exact Hf | discriminate].
  - rewrite Hn, Hb, Ht. split.
    + apply Forall_app. split; [exact Hf|]. constructor; [lia | constructor].
    + intros _ H. now apply app_eq_nil in H as [_ H].
Qed.

Lemma Forall_toggleTodo (P : Todo.t -> Prop) (p : jstr) (its : list Todo.t) :
  (forall x, P x -> P (Todo.flip x)) ->
  Forall P its -> Forall P (toggleTodo p its).
Proof.
  intros Hflip H. induction H as [|x rest Hx Hrest IH]; simpl; [constructor|].
  destruct (strict_eq (Todo.id x) p); constructor; auto.
Qed.

Lemma Forall_removeTodo (P : Todo.t -> Prop) (p : jstr) (its : list Todo.t) :
  Forall P its -> Forall P (removeTodo p its).
Proof.
  rewrite !Forall_forall. intros H x Hx. apply In_removeTodo in Hx. apply H, Hx.
Qed.

Lemma titles_ok_step (e : Event) (w : World) : titles_ok w -> titles_ok (step e w).
Proof.
  unfold titles_ok. intros Hw.
  destruct (step_todos_cases e w) as [_ [H|[(_ & Hb & H & _)|[[p H]|[[p H]|H]]]]];
    rewrite H.
  - exact Hw.
  - constructor; [|exact Hw]. simpl. split; [exact Hb | apply trim_idempotent].
  - apply Forall_toggleTodo; [|exact Hw]. intros x Hx. exact Hx.
  - now apply Forall_removeTodo.
  - constructor.
Qed.

Lemma newest_first_weaken (b b' : Z) (its : list Todo.t) :
  (b <= b')%Z -> newest_first b its -> newest_first b' its.
Proof. destruct its as [|x rest]; simpl; [auto|]. intros Hb [H1 H2]. split; [lia | exact H2]. Qed.

Lemma newest_first_toggleTodo (b : Z) (p : jstr) (its : list Todo.t) :
  newest_first b its -> newest_first b (toggleTodo p its).
Proof.
  revert b. induction its as [|x rest IH]; simpl; [auto|].
  intros b [H1 H2]. destruct (strict_eq (Todo.id x) p); simpl; auto.
Qed.

Lemma newest_first_removeTodo (b : Z) (p : jstr) (its : list Todo.t) :
  newest_first b its -> newest_first b (removeTodo p its).
Proof.
  unfold removeTodo. revert b. induction its as [|x rest IH]; simpl; [auto|].
  intros b [H1 H2]. destruct (negb _); simpl.
  - split; [exact H1 | now apply IH].
  - apply IH. now apply newest_first_weaken with (b := Todo.createdAt x).
Qed.

Lemma newest_first_step (e : Event) (w : World) :
  newest_first (now (env w)) (todos w) ->
  newest_first (now (env (step e w))) (todos (step e w)).
Proof.
  intros Hw.
  destruct (step_todos_cases e w) as [Hn [H|[(_ & _ & H & Hn')|[[p H]|[[p H]|H]]]]];
    rewrite H.
  - now apply newest_first_weaken with (b := now (env w)).
  - rewrite Hn'. simpl. split; [lia | exact Hw].
  - apply newest_first_toggleTodo. now apply newest_first_weaken with (b := now (env w)).
  - apply newest_first_removeTodo. now apply newest_first_weaken with (b := now (env w)).
  - exact I.
Qed.

(** What [newest_first] says of any two records of the list. *)
Lemma newest_first_spec (b : Z) (its pre mid post : list Todo.t) (x y : Todo.t) :
  newest_first b its -> its = pre ++ x :: mid ++ y :: post ->
  (Todo.createdAt y <= Todo.createdAt x <= b)%Z.
Proof.
  assert (Hall : forall l c z, newest_first c l -> In z l -> (Todo.createdAt z <= c)%Z).
  { induction l as [|a l IH]; simpl; [tauto|].
    intros c z [H1 H2] [<-|Hz]; [exact H1|]. specialize (IH _ _ H2 Hz). lia. }
  revert b its. induction pre as [|a pre IH]; simpl; intros b its H ->.
  - simpl in H. destruct H as [H1 H2]. split; [|exact H1].
    apply (Hall _ _ _ H2). apply in_or_app. right. now left.
  - simpl in H. destruct H as [H1 H2].
    specialize (IH _ _ H2 eq_refl). lia.
Qed.

Lemma add_banner_detached_step (e : Event) (w : World) :
  store_ok w -> add_banner_detached w -> add_banner_detached (step e w).
Proof.
  intros [Hi Hnd] Hw. destruct e as [s| |z|i| | | | |dt]; simpl.
  - exact Hw.
  - unfold exec. destruct (jstr_eq_dec (trim (title w)) []) as [E|E].
    + rewrite (handleAddTodo_blank _ E). exact Hw.
    + rewrite (handleAddTodo_eq _ E). intros m x Hs.
      unfold Showing in Hs. simpl in Hs. injection Hs as _ Hx. subst x.
      unfold todos. simpl. intros [E'|Hin].
      * apply nanoid_fresh in E'. lia.
      * revert Hin. apply unissued_id_absent; [exact Hi | lia].
  - rewrite handleToggleDone_exec. intros m x Hs. unfold Showing in Hs.
    simpl in Hs. destruct (Todo.done z); discriminate Hs.
  - intros m x Hs Hin. apply (Hw m x Hs).
    apply in_map_iff in Hin. destruct Hin as (y & Hy & Hin).
    apply In_removeTodo in Hin. rewrite <- Hy. apply in_map, Hin.
  - intros m x Hs [].
  - destruct (handleUndo_cases w) as [H|[H _]].
    + rewrite H. exact Hw.
    + intros m x Hs. unfold Showing, Idle in *. rewrite H in Hs. discriminate Hs.
  - intros m x Hs. discriminate Hs.
  - exact Hw.
  - destruct (elapse_cases dt w) as [[_ H]|H]; rewrite H.
    + exact Hw.
    + intros m x Hs. discriminate Hs.
Qed.

Lemma done_banner_synced_step (e : Event) (w : World) :
  NoDup (map Todo.id (todos w)) -> offered e w ->
  done_banner_synced w -> done_banner_synced (step e w).
Proof.
  intros Hnd Hoff Hw. destruct e as [s| |z|i| | | | |dt]; simpl.
  - exact Hw.
  - unfold exec. destruct (jstr_eq_dec (trim (title w)) []) as [E|E].
    + rewrite (handleAddTodo_blank _ E). exact Hw.
    + rewrite (handleAddTodo_eq _ E). intros m x Hs. discriminate Hs.
  - rewrite handleToggleDone_exec. intros m x Hs. unfold Showing in Hs.
    simpl in Hs. destruct (Todo.done z); [discriminate Hs|].
    injection Hs as _ Hx. subst x. unfold todos. simpl.
    intros y Hy E. simpl in Hoff. eapply toggleTodo_unique; eauto.
  - intros m x Hs y Hy. apply (Hw m x Hs). apply In_removeTodo in Hy. apply Hy.
  - intros m x Hs y [].
  - destruct (handleUndo_cases w) as [H|[H _]].
    + rewrite H. exact Hw.
    + intros m x Hs. unfold Showing, Idle in *. rewrite H in Hs. discriminate Hs.
  - intros m x Hs. discriminate Hs.
  - exact Hw.
  - destruct (elapse_cases dt w) as [[_ H]|H]; rewrite H.
    + exact Hw.
    + intros m x Hs. discriminate Hs.
Qed.

Lemma run_snoc (es : list Event) (e : Event) (w : World) :
  run (es ++ [e]) w = step e (run es w).
Proof. unfold run. now rewrite fold_left_app. Qed.

(** A state the user can reach is the end of a run from start-up. *)
Lemma ui_reachable_run (t0 : Z) (w : World) :
  ui_reachable t0 w -> exists es, w = run es (initial t0).
Proof.
  induction 1 as [|e w _ [es ->] _].
  - now exists [].
  - exists (es ++ [e]). now rewrite run_snoc.
Qed.

Lemma ui_reachable_synced (t0 : Z) (w : World) :
  ui_reachable t0 w -> store_ok w /\ done_banner_synced w.
Proof.
  induction 1 as [|e w _ [Hok Hs] Hoff].
  - split; [apply store_ok_initial|]. intros m x H. discriminate H.
  - split.
    + eapply store_ok_change; [apply step_store_change | exact Hok].
    + apply done_banner_synced_step; [apply Hok | exact Hoff | exact Hs].
Qed.

Lemma run_banner_timers (t0 : Z) (es : list Event) :
  banner_ok (run es (initial t0)) /\ timers_ok (run es (initial t0)).
Proof.
  apply (run_invariant (fun w => banner_ok w /\ timers_ok w)).
  - intros e w [H1 H2]. split; [now apply banner_ok_step | now apply timers_ok_step].
  - split; [now left|]. split; [constructor | discriminate].
Qed.

(** ** What holds in every state of a run *)

(** X1. In every state of a run from start-up, each stored title is
    non-empty and equal to its own [trim]: it neither starts nor ends
    with white space. *)
Theorem stored_titles_trimmed (t0 : Z) (es : list Event) (x : Todo.t) :
  In x (todos (run es (initial t0))) ->
  Todo.title x <> [] /\
  trim (Todo.title x) = Todo.title x /\
  starts_clean (Todo.title x) /\ ends_clean (Todo.title x).
Proof.
  intros Hin.
  assert (H : titles_ok (run es (initial t0))).
  { apply run_invariant; [apply titles_ok_step | constructor]. }
  unfold titles_ok in H. rewrite Forall_forall in H.
  destruct (H x Hin) as [H1 H2]. split; [exact H1|]. split; [exact H2|].
  destruct (trim_spec (Todo.title x)) as (l & r & _ & _ & _ & H3 & H4).
  rewrite H2 in H3, H4. now split.
Qed.

(** X10. In every state of a run from start-up the banner cells are
    consistent: either all four are reset, or the banner is visible with
    a [lastTodo], a [lastAction] that is add or done, and the message
    built from that todo's title (for done, a todo that was not done when
    pressed).  So the card is rendered exactly when [bannerVisible]. *)
Theorem banner_consistent (t0 : Z) (es : list Event) :
  let w := run es (initial t0) in
  banner_ok w /\
  banner_rendered (banner w) = bannerVisible (banner w) /\
  (bannerVisible (banner w) = false -> Idle w).
Proof.
  intros w. destruct (run_banner_timers t0 es) as [H _]. fold w in H.
  split; [exact H|]. unfold banner_rendered.
  destruct H as [H|[x [H|[H _]]]]; unfold Idle, Showing in H; rewrite H; simpl;
    split; try reflexivity; try discriminate. intros _. exact H.
Qed.

Lemma filter_none {A} (f : A -> bool) (l : list A) :
  (forall a, In a l -> f a = false) -> filter f l = [].
Proof.
  induction l as [|a l IH]; simpl; [reflexivity|]. intros H.
  rewrite (H a) by (now left). apply IH. intros b Hb. apply H. now right.
Qed.

(** X13. In every state of a run from start-up each pending timer is
    due within the next 3000 ms, and a visible banner has a timer
    pending; so once 3000 ms pass with no call, the banner is reset and
    no timer is left. *)
Theorem banner_hidden_after_3s (t0 : Z) (es : list Event) (dt : N) :
  let w := run es (initial t0) in
  Forall (fun d => (now (env w) < d <= now (env w) + 3000)%Z) (timers (env w)) /\
  (bannerVisible (banner w) = true -> timers (env w) <> []) /\
  ((3000 <= dt)%N -> Idle (elapse dt w) /\ timers (env (elapse dt w)) = []).
Proof.
  intros w. destruct (run_banner_timers t0 es) as [Hb [Hf Hv]].
  fold w in Hb, Hf, Hv. split; [exact Hf|]. split; [exact Hv|]. intros Hdt.
  destruct (elapse_cases dt w) as [[Hlate H]|H]; rewrite H; simpl.
  - assert (Hnil : timers (env w) = []).
    { destruct (timers (env w)) as [|d l]; [reflexivity|]. exfalso.
      inversion Hf as [|? ? Hd _]; subst. inversion Hlate as [|? ? Hd' _]; subst.
      lia. }
    split; [|exact Hnil]. unfold Idle. simpl.
    destruct Hb as [Hb|[x [Hb|[Hb _]]]]; [exact Hb | |];
      exfalso; apply Hv; auto; unfold Showing in Hb; now rewrite Hb.
  - split; [reflexivity|]. apply filter_none. intros d Hd.
    rewrite Forall_forall in Hf. specialize (Hf d Hd).
    apply negb_false_iff, Z.leb_le. lia.
Qed.

(** X14. In every state of a run from start-up (the clock never running
    backwards) the store is ordered newest first: no record was created
    later than now, and none later than a record before it in the list. *)
Theorem store_newest_first (t0 : Z) (es : list Event) :
  let w := run es (initial t0) in
  (forall x, In x (todos w) -> (Todo.createdAt x <= now (env w))%Z) /\
  (forall pre x mid y post,
     todos w = pre ++ x :: mid ++ y :: post ->
     (Todo.createdAt y <= Todo.createdAt x)%Z).
Proof.
  intros w.
  assert (H : newest_first (now (env w)) (todos w)).
  { apply (run_invariant (fun w => newest_first (now (env w)) (todos w))).
    - apply newest_first_step.
    - exact I. }
  split.
  - intros x Hx. apply in_split in Hx. destruct Hx as (pre & post & E).
    revert H. rewrite E. generalize (now (env w)). clear E.
    induction pre as [|a pre IH]; simpl; intros b [H1 H2]; [exact H1|].
    specialize (IH _ H2). lia.
  - intros pre x mid y post E.
    now destruct (newest_first_spec _ _ _ _ _ _ _ H E).
Qed.

Lemma run_store_detached (t0 : Z) (es : list Event) :
  store_ok (run es (initial t0)) /\ add_banner_detached (run es (initial t0)).
Proof.
  apply (run_invariant (fun w => store_ok w /\ add_banner_detached w)).
  - intros e w [H1 H2]. split.
    + eapply store_ok_change; [apply step_store_change | exact H1].
    + now apply add_banner_detached_step.
  - split; [apply store_ok_initial|]. intros m x H. discriminate H.
Qed.

(** X11. In every state of a run from start-up, with [nanoid] never
    repeating an id, the object an Added banner refers to has an id no
    stored record carries; pressing Undo on an Added banner therefore
    resets the banner and changes nothing else: no record is removed. *)
Theorem undo_of_add_never_removes (t0 : Z) (es : list Event) (m : jstr) (x : Todo.t) :
  let w := run es (initial t0) in
  Showing m x (lit "add") w ->
  ~ In (Todo.id x) (map Todo.id (todos w)) /\
  exec handleUndo w = mkWorld (store w) (title w) idle_banner (env w).
Proof.
  intros w Hs. destruct (run_store_detached t0 es) as [_ Hd]. fold w in Hd.
  pose proof (Hd m x Hs) as Habs. split; [exact Habs|].
  unfold exec. rewrite (handleUndo_add _ _ _ Hs). simpl.
  rewrite (removeTodo_absent _ _ Habs). unfold todos.
  now destruct (store w).
Qed.

(** X15. In every state of a run from start-up, with [nanoid] never
    repeating an id, the keys [keyExtractor] gives the rows of the To Do
    list are distinct, and so are those of the Done list. *)
Theorem list_keys_distinct (t0 : Z) (es : list Event) :
  let w := run es (initial t0) in
  NoDup (map Todo.id (undoneTodos (todos w))) /\
  NoDup (map Todo.id (doneTodos (todos w))).
Proof.
  intros w. destruct (reachable_store_ok t0 es) as [_ H]. fold w in H.
  split; apply NoDup_map_filter; exact H.
Qed.

(** X16. In every state the user can reach, with [nanoid] never
    repeating an id: when the Completed banner for a record is showing,
    the store holds that record marked done or no longer holds its id;
    pressing Undo then leaves the record exactly as it was before it was
    completed, if it is still stored, and never marks anything done. *)
Theorem undo_of_completion_restores (t0 : Z) (w : World) (m : jstr) (x : Todo.t) :
  ui_reachable t0 w ->
  Showing m x (lit "done") w ->
  let w' := exec handleUndo w in
  Todo.done x = false /\
  (forall y, In y (todos w) -> Todo.id y = Todo.id x -> y = Todo.flip x) /\
  todos w' = toggleTodo (Todo.id x) (todos w) /\
  (forall y, In y (todos w') -> Todo.id y = Todo.id x -> y = x) /\
  (In (Todo.id x) (map Todo.id (todos w)) -> In x (todos w')) /\
  Idle w'.
Proof.
  intros Hr Hs w'.
  destruct (ui_reachable_synced _ _ Hr) as [[_ Hnd] Hsync].
  pose proof (Hsync m x Hs) as Hx.
  assert (Hd : Todo.done x = false).
  { destruct (ui_reachable_run _ _ Hr) as [es ->].
    destruct (run_banner_timers t0 es) as [[Hb|[z [Hb|[Hb Hz]]]] _];
      unfold Idle, Showing in *; rewrite Hs in Hb; try discriminate Hb.
    injection Hb as _ Hb. now subst z. }
  assert (E : w' = mkWorld (mkRoot (darkMode (store w))
                             (toggleTodo (Todo.id x) (todos w)))
                     (title w) idle_banner (env w)).
  { unfold w', exec. now rewrite (handleUndo_done _ _ _ Hs). }
  assert (Ht : todos w' = toggleTodo (Todo.id x) (todos w)) by now rewrite E.
  assert (Hback : forall z, In z (todos w) -> Todo.id z = Todo.id x ->
                   forall y, In y (todos w') -> Todo.id y = Todo.id x -> y = x).
  { intros z Hz Ez y Hy Ey. pose proof (Hx z Hz Ez) as ->.
    rewrite Ht in Hy. rewrite <- (flip_flip x).
    apply (toggleTodo_unique (todos w) (Todo.flip x) y Hnd Hz Hy Ey). }
  split; [exact Hd|]. split; [exact Hx|]. split; [exact Ht|].
  split; [|split; [|now rewrite E]].
  - intros y Hy Ey.
    destruct (in_dec jstr_eq_dec (Todo.id x) (map Todo.id (todos w))) as [Hin|Hout].
    + apply in_map_iff in Hin. destruct Hin as (z & Ez & Hz). eauto.
    + rewrite Ht, (toggleTodo_absent _ _ Hout) in Hy. exfalso. apply Hout.
      rewrite <- Ey. now apply in_map.
  - intros Hin. destruct (find_by_id_present _ _ Hin) as (z & Hf & Hz & Ez).
    pose proof (Hx z Hz Ez) as ->. rewrite Ht.
    destruct (toggleTodo_exact _ _ _ Hf) as (pre & post & _ & Htg & _).
    rewrite Htg, flip_flip. apply in_or_app. right. now left.
Qed.

(** ** Dark mode *)

Lemma step_set_dark (b : bool) (e : Event) (w : World) :
  is_dark_press e = false -> step e (set_dark b w) = set_dark b (step e w).
Proof.
  destruct e as [s| |z|i| | | | |dt]; simpl; intros He; try discriminate He.
  - reflexivity.
  - unfold exec. destruct (jstr_eq_dec (trim (title w)) []) as [E|E].
    + rewrite (handleAddTodo_blank w E), (handleAddTodo_blank (set_dark b w) E).
      reflexivity.
    + rewrite (handleAddTodo_eq w E), (handleAddTodo_eq (set_dark b w) E).
      reflexivity.
  - rewrite !handleToggleDone_exec. reflexivity.
  - reflexivity.
  - reflexivity.
  - unfold exec, handleUndo, bind, gets, nothing_to_undo. simpl.
    destruct (lastTodo (banner w)) as [x|]; simpl; [|reflexivity].
    destruct (lastAction (banner w)) as [a|]; simpl; [|reflexivity].
    case_ifs; reflexivity.
  - reflexivity.
  - unfold elapse. simpl. destruct (filter _ (timers (env w))); reflexivity.
Qed.

Lemma step_darkMode (e : Event) (w : World) :
  is_dark_press e = false -> darkMode (store (step e w)) = darkMode (store w).
Proof.
  destruct e as [s| |z|i| | | | |dt]; simpl; intros He; try discriminate He;
    try reflexivity.
  - unfold exec. destruct (jstr_eq_dec (trim (title w)) []) as [E|E].
    + now rewrite (handleAddTodo_blank w E).
    + now rewrite (handleAddTodo_eq w E).
  - now rewrite handleToggleDone_exec.
  - unfold exec, handleUndo, bind, gets, nothing_to_undo.
    destruct (lastTodo (banner w)) as [x|]; simpl; [|reflexivity].
    destruct (lastAction (banner w)) as [a|]; simpl; [|reflexivity].
    case_ifs; reflexivity.
  - destruct (elapse_store_env dt w) as (Hs & _). now rewrite Hs.
Qed.

Lemma set_dark_twice (b c : bool) (w : World) :
  set_dark b (set_dark c w) = set_dark b w.
Proof. reflexivity. Qed.

Lemma set_dark_same (w : World) : set_dark (darkMode (store w)) w = w.
Proof. now destruct w as [[d its] ti bn e]. Qed.

Lemma step_modulo_dark (b : bool) (e : Event) (w1 w2 : World) :
  set_dark b w1 = set_dark b w2 ->
  set_dark b (step e w1) =
  set_dark b (if is_dark_press e then w2 else step e w2).
Proof.
  intros H. destruct (is_dark_press e) eqn:He.
  - destruct e; try discriminate He. simpl. exact H.
  - rewrite <- (set_dark_same w1), <- (set_dark_same w2).
    rewrite <- (set_dark_twice (darkMode (store w1)) b w1).
    rewrite <- (set_dark_twice (darkMode (store w2)) b w2).
    rewrite H, !(step_set_dark _ e _ He). reflexivity.
Qed.

(** X8. The dark mode switch and everything else are independent: a run
    ends with the same todos, text field, banner, timers and clock as the
    run with the switch presses left out, and the switch ends where an
    odd or even number of presses puts it. *)
Theorem darkMode_independent (es : list Event) (w : World) :
  let w1 := run es w in
  let w2 := run (filter (fun e => negb (is_dark_press e)) es) w in
  todos w1 = todos w2 /\ title w1 = title w2 /\
  banner w1 = banner w2 /\ env w1 = env w2 /\
  darkMode (store w1) =
  xorb (darkMode (store w))
    (Nat.odd (List.length (filter is_dark_press es))).
Proof.
  intros w1 w2.
  assert (H : set_dark false w1 = set_dark false w2).
  { unfold w1, w2, run. clear w1 w2.
    assert (G : forall u v, set_dark false u = set_dark false v ->
              set_dark false (fold_left (fun w e => step e w) es u) =
              set_dark false
                (fold_left (fun w e => step e w)
                   (filter (fun e => negb (is_dark_press e)) es) v)).
    { induction es as [|e es IH]; simpl; intros u v Huv; [exact Huv|].
      pose proof (step_modulo_dark false e u v Huv) as Hs.
      destruct (is_dark_press e); simpl; apply IH; exact Hs. }
    now apply G. }
  assert (Hd : darkMode (store w1) =
               xorb (darkMode (store w))
                 (Nat.odd (List.length (filter is_dark_press es)))).
  { unfold w1, run. clear. revert w.
    induction es as [|e es IH]; intros w.
    - simpl. now rewrite xorb_false_r.
    - cbn [fold_left filter]. rewrite IH.
      destruct (is_dark_press e) eqn:He.
      + destruct e; try discriminate He. cbn [List.length].
        rewrite Nat.odd_succ, <- Nat.negb_odd. simpl.
        destruct (darkMode (store w)), (Nat.odd _); reflexivity.
      + now rewrite (step_darkMode e w He). }
  split; [|split; [|split; [|split; [|exact Hd]]]].
  - apply (f_equal todos) in H. exact H.
  - apply (f_equal title) in H. exact H.
  - apply (f_equal banner) in H. exact H.
  - apply (f_equal env) in H. exact H.
Qed.

End App.

(** ** Concrete runs *)

Lemma counter_id_length (k : nat) : List.length (counter_id k) = S k.
Proof. induction k as [|k IH]; simpl; [reflexivity | now rewrite IH]. Qed.

Lemma counter_id_fresh (i j : nat) : counter_id i = counter_id j -> i = j.
Proof.
  intros E. apply (f_equal (@List.length N)) in E.
  rewrite !counter_id_length in E. lia.
Qed.

(** C1 on a run.  From start-up, type Buy milk, press Add, press Undo:
    the banner after the add refers to an object with the first id
    [nanoid] returned, the store holds a record with the second id, and
    after the undo that record is still there, the count still one, while
    the controller is Idle. *)
Theorem undo_after_add_keeps_record :
  let w0 := step counter_id (Typed (lit "Buy milk")) (initial 0) in
  let w1 := exec (handleAddTodo counter_id) w0 in
  let w2 := exec handleUndo w1 in
  Showing (added_message (lit "Buy milk"))
    (Todo.mk (counter_id 0) (lit "Buy milk") false 0) (lit "add") w1 /\
  todos w1 = [Todo.mk (counter_id 1) (lit "Buy milk") false 0] /\
  todos w2 = [Todo.mk (counter_id 1) (lit "Buy milk") false 0] /\
  List.length (todos w2) = 1 /\
  Idle w2.
Proof. repeat split. Qed.

(** C2 fails on a run.  Add A at time 0 and B at time 2000: both timers
    are pending after the second add, and at time 3000, one second after
    B's banner appeared, the first timer has reset it. *)
Lemma stale_timer_resets_newer_banner :
  let w1 :=
    run counter_id [Typed (lit "A"); PressAdd; Wait 2000; Typed (lit "B")]
      (initial 0) in
  let w2 := exec (handleAddTodo counter_id) w1 in
  timers (env w1) = [3000%Z] /\
  now (env w2) = 2000%Z /\
  timers (env w2) = [3000%Z; 5000%Z] /\
  Showing (added_message (lit "B"))
    (Todo.mk (counter_id 2) (lit "B") false 2000) (lit "add") w2 /\
  now (env (elapse 1000 w2)) = 3000%Z /\
  Idle (elapse 1000 w2) /\
  ~ Showing (added_message (lit "B"))
      (Todo.mk (counter_id 2) (lit "B") false 2000) (lit "add")
      (elapse 1000 w2).
Proof. repeat split. discriminate. Qed.

(** C3 fails on a run.  With three spaces typed, [handleAddTodo] returns
    normally: no InvalidInput reaches the caller. *)
Lemma blank_add_reports_no_error :
  let w := step counter_id (Typed (lit "   ")) (initial 0) in
  trim (title w) = [] /\
  outcome (handleAddTodo counter_id) w = Returned tt /\
  ~ (todos (exec (handleAddTodo counter_id) w) = todos w /\
     outcome (handleAddTodo counter_id) w = Thrown "InvalidInput").
Proof.
  repeat split. intros [_ H]. discriminate H.
Qed.

(** The empty text and three spaces are both ignored. *)
Lemma handleAddTodo_blank_ignored_witness :
  (trim (title (initial 0)) = [] /\
   exec (handleAddTodo counter_id) (initial 0) = initial 0) /\
  let w := step counter_id (Typed (lit "   ")) (initial 0) in
  trim (title w) = [] /\
  outcome (handleAddTodo counter_id) w = Returned tt /\
  exec (handleAddTodo counter_id) w = w /\
  todos (exec (handleAddTodo counter_id) w) = todos w.
Proof.
  split.
  - split; [reflexivity|].
    apply (handleAddTodo_blank_ignored counter_id (initial 0) eq_refl).
  - intros w. split; [reflexivity|].
    apply (handleAddTodo_blank_ignored counter_id w eq_refl).
Defined.

(** Toggling the second of two records twice. *)
Lemma toggleTodo_twice_witness :
  let a := Todo.mk (lit "i1") (lit "A") false 0 in
  let b := Todo.mk (lit "i2") (lit "B") true 5 in
  let s := mkRoot false [a; b] in
  In (lit "i2") (map Todo.id (items s)) /\
  toggleTodo (lit "i2") (items s) = [a; Todo.flip b] /\
  toggleTodo (lit "i2") (toggleTodo (lit "i2") (items s)) = items s.
Proof.
  intros a b s. split; [simpl; auto|]. split; [reflexivity|].
  apply (toggleTodo_twice s (lit "i2")). simpl. auto.
Defined.

(** An id the store does not hold, in the Idle state. *)
Lemma missing_target_is_noop_witness :
  let a := Todo.mk (lit "i1") (lit "A") false 0 in
  let w := mkWorld (mkRoot false [a]) [] idle_banner (mkEnv 0 [] 2 1) in
  ~ In (lit "i9") (map Todo.id (todos w)) /\
  Idle w /\
  dispatch (ToggleTodo (lit "i9")) w = (Returned tt, w) /\
  dispatch (RemoveTodo (lit "i9")) w = (Returned tt, w) /\
  handleUndo w = (Returned tt, w).
Proof.
  intros a w.
  assert (Hp : ~ In (lit "i9") (map Todo.id (todos w)))
    by (simpl; intros [H|[]]; discriminate H).
  assert (Hi : Idle w) by reflexivity.
  destruct (missing_target_is_noop w) as (H1 & H2 & _).
  destruct (H1 (lit "i9") Hp) as [Ht Hr].
  repeat split; auto.
Defined.

(** Buy milk typed with spaces around it. *)
Lemma handleAddTodo_trims_witness :
  let w := step counter_id (Typed (lit "  Buy milk ")) (initial 0) in
  trim (title w) <> [] /\
  bannerMessage (banner (exec (handleAddTodo counter_id) w)) =
    lit "Added: " ++ [dquote] ++ lit "Buy milk" ++ [dquote] /\
  banner_text (banner (exec (handleAddTodo counter_id) w)) =
    Some (lit "Added: " ++ [dquote] ++ lit "Buy milk" ++ [dquote]) /\
  map Todo.title (todos (exec (handleAddTodo counter_id) w)) = [lit "Buy milk"].
Proof.
  intros w.
  assert (H : trim (title w) <> []) by (vm_compute; discriminate).
  destruct (handleAddTodo_trims counter_id w H)
    as (_ & _ & Hm & _ & _ & _ & Ht & _).
  split; [exact H|]. split; [exact Hm|]. split; [exact Ht | reflexivity].
Defined.

(** Adding A, then B, from start-up: the store reads B, A. *)
Lemma handleAddTodo_prepends_witness :
  let w := step counter_id (Typed (lit "A")) (initial 0) in
  store_ok counter_id w /\
  trim (title w) <> [] /\
  (exists r,
     todos (exec (handleAddTodo counter_id) w) = r :: todos w /\
     Todo.done r = false) /\
  map Todo.title
    (todos (run counter_id [Typed (lit "A"); PressAdd; Typed (lit "B"); PressAdd]
              (initial 0))) = [lit "B"; lit "A"].
Proof.
  intros w.
  assert (Hok : store_ok counter_id w) by (split; [intros x []|constructor]).
  assert (H : trim (title w) <> []) by (vm_compute; discriminate).
  destruct (handleAddTodo_prepends counter_id counter_id_fresh w Hok) as [H1 _].
  destruct (H1 H) as (r & Hr & _ & Hd & _).
  split; [exact Hok|]. split; [exact H|]. split; [|reflexivity].
  exists r. split; [exact Hr | exact Hd].
Defined.

(** Completing B and undoing it, next to a record already done. *)
Lemma undo_after_complete_witness :
  let a := Todo.mk (lit "i1") (lit "A") true 0 in
  let b := Todo.mk (lit "i2") (lit "B") false 5 in
  let w := mkWorld (mkRoot false [a; b]) [] idle_banner (mkEnv 10 [] 4 2) in
  NoDup (map Todo.id (todos w)) /\ In b (todos w) /\ Todo.done b = false /\
  todos (exec (handleToggleDone b) w) = [a; Todo.flip b] /\
  todos (exec handleUndo (exec (handleToggleDone b) w)) = todos w /\
  Idle (exec handleUndo (exec (handleToggleDone b) w)).
Proof.
  intros a b w.
  assert (Hnd : NoDup (map Todo.id (todos w))).
  { simpl. constructor; [intros [H|[]]; discriminate H|].
    constructor; [intros []|constructor]. }
  assert (Hin : In b (todos w)) by (simpl; auto).
  assert (Hd : Todo.done b = false) by reflexivity.
  destruct (undo_after_complete w b Hnd Hin Hd) as (_ & _ & _ & _ & _ & Ht & Hi).
  repeat split; auto.
Defined.

(** Un-completing A while its Completed banner is showing. *)
Lemma uncomplete_goes_idle_witness :
  let a := Todo.mk (lit "i1") (lit "A") true 0 in
  let w :=
    mkWorld (mkRoot false [a]) []
      (mkBanner true (completed_message (lit "A")) (Some (Todo.flip a))
         (Some (lit "done")))
      (mkEnv 10 [3010%Z] 2 1) in
  Todo.done a = true /\
  Idle (exec (handleToggleDone a) w) /\
  todos (exec (handleToggleDone a) w) = [Todo.flip a].
Proof.
  intros a w. split; [reflexivity|].
  destruct (uncomplete_goes_idle w a eq_refl) as (Hi & _).
  split; [exact Hi | reflexivity].
Defined.

(** A banner with no earlier timer pending, and one with a timer one
    second from due. *)
Lemma showBanner_timers_witness :
  let a := Todo.mk (lit "i1") (lit "A") false 0 in
  let fresh := initial 0 in
  let stale := mkWorld (mkRoot false []) [] idle_banner (mkEnv 2000 [3000%Z] 2 1) in
  Idle (elapse 3000 (exec (showBanner (lit "m") a (lit "add")) fresh)) /\
  Showing (lit "m") a (lit "add")
    (elapse 2999 (exec (showBanner (lit "m") a (lit "add")) fresh)) /\
  Idle (elapse 1000 (exec (showBanner (lit "m") a (lit "add")) stale)).
Proof.
  intros a fresh stale.
  destruct (showBanner_timers (lit "m") a (lit "add") fresh 3000) as (_ & _ & H1 & _).
  destruct (showBanner_timers (lit "m") a (lit "add") fresh 2999) as (_ & _ & _ & H2 & _).
  destruct (showBanner_timers (lit "m") a (lit "add") stale 1000) as (_ & _ & _ & _ & H3).
  split; [apply H1; vm_compute; discriminate|].
  split; [apply H2; [reflexivity | intros d []]|].
  apply H3; [reflexivity|]. exists 3000%Z. split; [simpl; auto | vm_compute; discriminate].
Defined.

(** ** Concrete runs for the further properties *)

(** Removing the second of two records. *)
Lemma removeTodo_exact_witness :
  let a := Todo.mk (lit "i1") (lit "A") false 0 in
  let b := Todo.mk (lit "i2") (lit "B") true 5 in
  NoDup (map Todo.id [a; b]) /\ In (lit "i2") (map Todo.id [a; b]) /\
  removeTodo (lit "i2") [a; b] = [a] /\
  S (List.length (removeTodo (lit "i2") [a; b])) = List.length [a; b].
Proof.
  intros a b.
  assert (Hnd : NoDup (map Todo.id [a; b])).
  { simpl. constructor; [intros [H|[]]; discriminate H|].
    constructor; [intros []|constructor]. }
  assert (Hin : In (lit "i2") (map Todo.id [a; b])) by (simpl; auto).
  destruct (removeTodo_exact (lit "i2") [a; b]) as [_ H].
  split; [exact Hnd|]. split; [exact Hin|]. split; [reflexivity|].
  exact (H Hnd Hin).
Defined.

(** Toggling the second of two records. *)
Lemma toggleTodo_exact_witness :
  let a := Todo.mk (lit "i1") (lit "A") false 0 in
  let b := Todo.mk (lit "i2") (lit "B") true 5 in
  find_by_id (lit "i2") [a; b] = Some b /\
  exists pre post,
    [a; b] = pre ++ b :: post /\
    toggleTodo (lit "i2") [a; b] = pre ++ Todo.flip b :: post.
Proof.
  intros a b. split; [reflexivity|].
  destruct (toggleTodo_exact (lit "i2") [a; b] b eq_refl)
    as (pre & post & H1 & H2 & _).
  exists pre, post. split; [exact H1 | exact H2].
Defined.

(** One record in each list. *)
Lemma lists_partition_store_witness :
  let a := Todo.mk (lit "i1") (lit "A") false 0 in
  let b := Todo.mk (lit "i2") (lit "B") true 5 in
  In a [b; a] /\ Todo.done a = false /\
  undoneTodos [b; a] = [a] /\ doneTodos [b; a] = [b] /\
  In a (undoneTodos [b; a]).
Proof.
  intros a b.
  assert (Hin : In a [b; a]) by (simpl; auto).
  destruct (lists_partition_store [b; a]) as (_ & _ & Hu & _).
  split; [exact Hin|]. split; [reflexivity|].
  split; [reflexivity|]. split; [reflexivity|].
  apply Hu. split; [exact Hin | reflexivity].
Defined.

(** Add run twice after typing A: by the re-rendered handler, and by
    the closure of the first render. *)
Lemma handleAddTodo_twice_witness :
  let w := step counter_id (Typed (lit "A")) (initial 0) in
  let w1 := exec (handleAddTodo counter_id) w in
  trim (title w) <> [] /\
  title w1 = [] /\
  List.length (todos (exec (handleAddTodo counter_id) w1)) = 1 /\
  map Todo.title (todos (exec (handleAddTodo_of counter_id (title w)) w1)) =
    [lit "A"; lit "A"].
Proof.
  intros w w1.
  assert (H : trim (title w) <> []) by (vm_compute; discriminate).
  destruct (handleAddTodo_twice counter_id w) as (_ & Hre & Hst).
  destruct (Hst H) as [Ht _].
  split; [exact H|]. split; [exact Ht|]. split; [|reflexivity].
  fold w1 in Hre. rewrite Hre. reflexivity.
Defined.

(** Undo run twice on the Completed banner of A. *)
Lemma handleUndo_twice_witness :
  let a := Todo.mk (counter_id 1) (lit "A") false 0 in
  let w := run counter_id [Typed (lit "A"); PressAdd; PressDone a] (initial 0) in
  let w1 := exec handleUndo w in
  Showing (completed_message (lit "A")) a (lit "done") w /\
  nothing_to_undo (banner w) = false /\
  todos w = [Todo.flip a] /\
  todos w1 = [a] /\
  banner_rendered (banner w1) = false /\
  todos (exec (handleUndo_of (banner w)) w1) = [Todo.flip a].
Proof.
  intros a w w1.
  assert (Hs : Showing (completed_message (lit "A")) a (lit "done") w)
    by reflexivity.
  assert (Hn : nothing_to_undo (banner w) = false) by reflexivity.
  destruct (handleUndo_twice w) as (_ & _ & Hgone & Hdone & _).
  destruct (Hgone Hn) as [_ Hr].
  destruct (Hdone _ _ Hs) as (_ & Hback & _).
  split; [exact Hs|]. split; [exact Hn|]. split; [reflexivity|].
  split; [reflexivity|]. split; [exact Hr | exact Hback].
Defined.

(** Pressing Done on B, next to a record already done. *)
Lemma handleToggleDone_moves_witness :
  let a := Todo.mk (lit "i1") (lit "A") true 0 in
  let b := Todo.mk (lit "i2") (lit "B") false 5 in
  let w := mkWorld (mkRoot false [a; b]) [] idle_banner (mkEnv 10 [] 4 2) in
  NoDup (map Todo.id (todos w)) /\ In b (todos w) /\
  doneTodos (todos (exec (handleToggleDone b) w)) = [a; Todo.flip b] /\
  ~ In b (todos (exec (handleToggleDone b) w)).
Proof.
  intros a b w.
  assert (Hnd : NoDup (map Todo.id (todos w))).
  { simpl. constructor; [intros [H|[]]; discriminate H|].
    constructor; [intros []|constructor]. }
  assert (Hin : In b (todos w)) by (simpl; auto).
  destruct (handleToggleDone_moves w b Hnd Hin) as (_ & Hgone & _).
  split; [exact Hnd|]. split; [exact Hin|]. split; [reflexivity | exact Hgone].
Defined.

(** Buy milk typed with spaces around it, then added. *)
Lemma stored_titles_trimmed_witness :
  let es := [Typed (lit "  Buy milk "); PressAdd] in
  let x := Todo.mk (counter_id 1) (lit "Buy milk") false 0 in
  In x (todos (run counter_id es (initial 0))) /\
  Todo.title x <> [] /\ trim (Todo.title x) = Todo.title x.
Proof.
  intros es x.
  assert (Hin : In x (todos (run counter_id es (initial 0)))) by (simpl; auto).
  destruct (stored_titles_trimmed counter_id 0 es x Hin) as (H1 & H2 & _).
  split; [exact Hin|]. split; [exact H1 | exact H2].
Defined.

(** An add, then Dismiss. *)
Lemma banner_consistent_witness :
  let w := run counter_id [Typed (lit "A"); PressAdd; PressDismiss] (initial 0) in
  bannerVisible (banner w) = false /\ Idle w.
Proof.
  intros w.
  destruct (banner_consistent counter_id 0
              [Typed (lit "A"); PressAdd; PressDismiss]) as (_ & _ & H).
  split; [reflexivity | exact (H eq_refl)].
Defined.

(** An add, one second of waiting, then three more. *)
Lemma banner_hidden_after_3s_witness :
  let w := run counter_id [Typed (lit "A"); PressAdd; Wait 1000] (initial 0) in
  (3000 <= 3000)%N /\ bannerVisible (banner w) = true /\
  timers (env w) <> [] /\
  Idle (elapse 3000 w) /\ timers (env (elapse 3000 w)) = [].
Proof.
  intros w.
  destruct (banner_hidden_after_3s counter_id 0
              [Typed (lit "A"); PressAdd; Wait 1000] 3000) as (_ & Hv & H).
  assert (Hdt : (3000 <= 3000)%N) by (vm_compute; discriminate).
  split; [exact Hdt|]. split; [reflexivity|]. split; [exact (Hv eq_refl)|].
  exact (H Hdt).
Defined.

(** A added at time 0, B at time 5. *)
Lemma store_newest_first_witness :
  let es := [Typed (lit "A"); PressAdd; Wait 5; Typed (lit "B"); PressAdd] in
  let a := Todo.mk (counter_id 1) (lit "A") false 0 in
  let b := Todo.mk (counter_id 3) (lit "B") false 5 in
  todos (run counter_id es (initial 0)) = [] ++ b :: [] ++ a :: [] /\
  (Todo.createdAt a <= Todo.createdAt b)%Z /\
  (Todo.createdAt b <= now (env (run counter_id es (initial 0))))%Z.
Proof.
  intros es a b.
  assert (E : todos (run counter_id es (initial 0)) = [] ++ b :: [] ++ a :: [])
    by reflexivity.
  destruct (store_newest_first counter_id 0 es) as [H1 H2].
  split; [exact E|]. split; [exact (H2 [] b [] a [] E)|].
  apply H1. simpl. auto.
Defined.

(** Buy milk added, the Added banner showing. *)
Lemma undo_of_add_never_removes_witness :
  let es := [Typed (lit "Buy milk"); PressAdd] in
  let x := Todo.mk (counter_id 0) (lit "Buy milk") false 0 in
  let w := run counter_id es (initial 0) in
  Showing (added_message (lit "Buy milk")) x (lit "add") w /\
  exec handleUndo w = mkWorld (store w) (title w) idle_banner (env w).
Proof.
  intros es x w.
  assert (Hs : Showing (added_message (lit "Buy milk")) x (lit "add") w)
    by reflexivity.
  destruct (undo_of_add_never_removes counter_id counter_id_fresh 0 es
              (added_message (lit "Buy milk")) x Hs) as [_ H].
  split; [exact Hs | exact H].
Defined.

(** Two adds and a completion. *)
Lemma list_keys_distinct_witness :
  let es := [Typed (lit "A"); PressAdd; Typed (lit "B"); PressAdd;
             PressDone (Todo.mk (counter_id 1) (lit "A") false 0)] in
  let w := run counter_id es (initial 0) in
  List.length (undoneTodos (todos w)) = 1 /\
  List.length (doneTodos (todos w)) = 1 /\
  NoDup (map Todo.id (undoneTodos (todos w))) /\
  NoDup (map Todo.id (doneTodos (todos w))).
Proof.
  intros es w.
  destruct (list_keys_distinct counter_id counter_id_fresh 0 es) as [H1 H2].
  split; [reflexivity|]. split; [reflexivity|]. split; [exact H1 | exact H2].
Defined.

(** A added and completed, the Completed banner showing. *)
Lemma undo_of_completion_restores_witness :
  let a := Todo.mk (counter_id 1) (lit "A") false 0 in
  let w := step counter_id (PressDone a)
             (step counter_id PressAdd
                (step counter_id (Typed (lit "A")) (initial 0))) in
  ui_reachable counter_id 0 w /\
  Showing (completed_message (lit "A")) a (lit "done") w /\
  todos w = [Todo.flip a] /\
  todos (exec handleUndo w) = [a] /\
  In a (todos (exec handleUndo w)).
Proof.
  intros a w.
  assert (Hr : ui_reachable counter_id 0 w).
  { apply ui_step; [apply ui_step; [apply ui_step; [apply ui_start|] |]|].
    - exact I.
    - exact I.
    - simpl. left. reflexivity. }
  assert (Hs : Showing (completed_message (lit "A")) a (lit "done") w)
    by reflexivity.
  destruct (undo_of_completion_restores counter_id counter_id_fresh 0 w
              (completed_message (lit "A")) a Hr Hs)
    as (_ & _ & _ & _ & Hin & _).
  split; [exact Hr|]. split; [exact Hs|]. split; [reflexivity|].
  split; [reflexivity|]. apply Hin. simpl. left. reflexivity.
Defined.
